(** * NodePulse: the polling core of the Bitcoin node dashboard

    A shallow embedding of the data-carrying classes of [nodepulse.py]
    ([BitcoinNodeData], [BitcoinNodeController], [BitcoinConfigManager],
    [SyncStatsTracker], and the state machine of [NodePulseApp.refresh_data]
    and [SettingsPanel.apply_changes]), with the properties of the design
    document stated and proved against them.

    Conventions of the embedding.
    - Python [int] is [Z]; a Python value that may be [None] is an [option].
    - [datetime] values are microseconds on the wall clock, a [Z]
      (microseconds are the resolution of [datetime]).  [datetime.now()] is
      an explicit argument of every function that reads the clock.
    - Python [float] results are exact rationals ([Q]): rounding is not
      modelled, signs and zero tests are those of the exact quotient.
    - [str] is [string], read as ASCII text.
    - An insertion-ordered [dict] of strings is an association list with
      unique keys; a [set] of strings is a [gset string]. *)

From Stdlib Require Import ZArith QArith Lia Ascii String.
From Stdlib Require Import DecimalString DecimalPos DecimalN.
From Stdlib.Init Require Import Decimal.
From stdpp Require Import base list strings gmap sorting.

Local Open Scope Z_scope.

(* ===================================================================== *)
(** * SyncStatsTracker *)
(* ===================================================================== *)

Module Tracker.

(** One entry of [self.history]: the dict
    [{'time': now, 'blocks': blocks, 'headers': headers, 'is_syncing': ...}]. *)
Record Sample := mkSample {
  time : Z;
  blocks : Z;
  headers : Z;
  is_syncing : bool
}.

Record SyncStatsTracker := mkTracker {
  max_history : nat;
  history : list Sample;          (* deque(maxlen=max_history) *)
  start_time : Z;
  initial_blocks : option Z;
  was_syncing : option bool
}.

(** [deque.append] on a bounded deque: the item goes to the right end and,
    when the deque is then longer than [maxlen], the leftmost item is
    dropped. *)
Definition deque_append {A} (maxlen : nat) (d : list A) (x : A) : list A :=
  let d' := d ++ [x] in
  if (maxlen <? length d')%nat then tail d' else d'.

(** [SyncStatsTracker.__init__]; [now] is the clock at construction. *)
Definition init (now : Z) (max_history : nat) : SyncStatsTracker :=
  {| max_history := max_history;
     history := [];
     start_time := now;
     initial_blocks := None;
     was_syncing := None |}.

(** [self.was_syncing and not is_syncing]: Python's [and] returns its left
    operand when that is falsy, so the value is [None] while no call has
    been made, [False] after a non-syncing call, and [not is_syncing]
    after a syncing one. *)
Definition py_and_not (was : option bool) (is_syncing : bool) : option bool :=
  match was with
  | None => None
  | Some false => Some false
  | Some true => Some (negb is_syncing)
  end.

(** Truth value of the returned flag, as [if sync_completed:] tests it. *)
Definition truthy (v : option bool) : bool :=
  match v with
  | Some b => b
  | None => false
  end.

(** [SyncStatsTracker.update]: returns the flag and the tracker after the
    call. *)
Definition update (t : SyncStatsTracker) (now : Z)
    (blocks headers : Z) (is_syncing : bool)
  : option bool * SyncStatsTracker :=
  let initial_blocks' :=
    match initial_blocks t with
    | None => Some blocks
    | Some b => Some b
    end in
  let sync_completed := py_and_not (was_syncing t) is_syncing in
  (sync_completed,
   {| max_history := max_history t;
      history := deque_append (max_history t) (history t)
                   (mkSample now blocks headers is_syncing);
      start_time := start_time t;
      initial_blocks := initial_blocks';
      was_syncing := Some is_syncing |}).

(** [timedelta.total_seconds()] of a difference of two clock readings. *)
Definition total_seconds (micros : Z) : Q := micros # 1000000.

(** [list(self.history)[-12:]] *)
Definition recent_data (t : SyncStatsTracker) : list Sample :=
  drop (length (history t) - 12) (history t).

(** [SyncStatsTracker.get_blocks_per_hour] *)
Definition get_blocks_per_hour (t : SyncStatsTracker) : Q :=
  if (length (history t) <? 2)%nat then 0%Q
  else
    let recent := recent_data t in
    if (length recent <? 2)%nat then 0%Q
    else
      match head recent, last recent with
      | Some oldest, Some newest =>
          let time_diff :=
            (total_seconds (time newest - time oldest) / 3600)%Q in
          if Qeq_bool time_diff 0 then 0%Q
          else
            let block_diff := blocks newest - blocks oldest in
            (inject_Z block_diff / time_diff)%Q
      | _, _ => 0%Q     (* not reached: [recent] has two items or more *)
      end.

(** [timedelta(hours=h)] *)
Record timedelta := mkTimedelta { td_hours : Q }.

(** [SyncStatsTracker.get_eta] *)
Definition get_eta (t : SyncStatsTracker) (current_blocks total_headers : Z)
  : option timedelta :=
  let bph := get_blocks_per_hour t in
  if Qeq_bool bph 0 || (total_headers <=? current_blocks) then None
  else
    let blocks_remaining := total_headers - current_blocks in
    let hours_remaining := (inject_Z blocks_remaining / bph)%Q in
    Some (mkTimedelta hours_remaining).

(** [SyncStatsTracker.get_uptime] *)
Definition get_uptime (t : SyncStatsTracker) (now : Z) : Z :=
  now - start_time t.

(** [SyncStatsTracker.get_blocks_synced] *)
Definition get_blocks_synced (t : SyncStatsTracker) : Z :=
  match last (history t), initial_blocks t with
  | Some newest, Some b0 => blocks newest - b0
  | _, _ => 0
  end.

(** The arguments of one [update] call, clock included. *)
Record Call := mkCall {
  c_now : Z;
  c_blocks : Z;
  c_headers : Z;
  c_is_syncing : bool
}.

Definition update_call (t : SyncStatsTracker) (c : Call)
  : option bool * SyncStatsTracker :=
  update t (c_now c) (c_blocks c) (c_headers c) (c_is_syncing c).

(** The tracker after a sequence of [update] calls. *)
Definition feed (t : SyncStatsTracker) (cs : list Call) : SyncStatsTracker :=
  foldl (fun t c => snd (update_call t c)) t cs.

(** The flags returned by a sequence of [update] calls, in call order. *)
Fixpoint flags (t : SyncStatsTracker) (cs : list Call) : list (option bool) :=
  match cs with
  | [] => []
  | c :: cs' =>
      let '(r, t') := update_call t c in
      r :: flags t' cs'
  end.

Definition sample_of (c : Call) : Sample :=
  mkSample (c_now c) (c_blocks c) (c_headers c) (c_is_syncing c).

(** The clock did not go backwards between consecutive calls. *)
Definition time_ordered (cs : list Call) : Prop :=
  StronglySorted Z.le (c_now <$> cs).

End Tracker.

(* ===================================================================== *)
(** * Python text primitives used by the configuration manager *)
(* ===================================================================== *)

Module Py.

Local Open Scope string_scope.

Definition newline : ascii := ascii_of_nat 10.
Definition nl : string := String newline "".

(** Characters that [str.strip()] removes, within ASCII: tab, line feed,
    vertical tab, form feed, carriage return, the four separators
    0x1c-0x1f and space. *)
Definition is_space (c : ascii) : bool :=
  let n := nat_of_ascii c in
  ((9 <=? n) && (n <=? 13) || (28 <=? n) && (n <=? 32))%nat.

Fixpoint lstrip (s : string) : string :=
  match s with
  | "" => ""
  | String c s' => if is_space c then lstrip s' else s
  end.

Fixpoint rstrip (s : string) : string :=
  match s with
  | "" => ""
  | String c s' =>
      match rstrip s' with
      | "" => if is_space c then "" else String c ""
      | r => String c r
      end
  end.

(** [s.strip()] *)
Definition strip (s : string) : string := rstrip (lstrip s).

(** [s.startswith(p)] *)
Fixpoint startswith (p s : string) : bool :=
  match p with
  | "" => true
  | String a p' =>
      match s with
      | "" => false
      | String b s' => Ascii.eqb a b && startswith p' s'
      end
  end.

(** [s.split(sep, 1)] for a one-character separator that occurs in [s]:
    the text before the first occurrence and the text after it; [None]
    when [sep] does not occur ([sep in s] is false). *)
Fixpoint split_once (sep : ascii) (s : string) : option (string * string) :=
  match s with
  | "" => None
  | String c s' =>
      if Ascii.eqb c sep then Some ("", s')
      else match split_once sep s' with
           | Some (k, v) => Some (String c k, v)
           | None => None
           end
  end.

(** [f.readlines()] (and iteration over a text file): the text cut after
    every line feed, each line keeping its terminator; a last line without
    terminator is kept as it is.  The text is the one Python hands to the
    program, line endings already translated to line feeds. *)
Fixpoint readlines (s : string) : list string :=
  match s with
  | "" => []
  | String c s' =>
      if Ascii.eqb c newline then nl :: readlines s'
      else match readlines s' with
           | [] => [String c ""]
           | l :: ls => String c l :: ls
           end
  end.

(** [f.writelines(lines)]: the lines one after the other, nothing added. *)
Definition writelines (lines : list string) : string :=
  foldr String.append "" lines.

Definition is_digit (c : ascii) : bool :=
  let n := nat_of_ascii c in ((48 <=? n) && (n <=? 57))%nat.

Fixpoint all_digits (s : string) : bool :=
  match s with
  | "" => true
  | String c s' => is_digit c && all_digits s'
  end.

(** [s.isdigit()]: at least one character, and digits only. *)
Definition isdigit (s : string) : bool :=
  match s with
  | "" => false
  | _ => all_digits s
  end.

(** [int(s)] for a string of decimal digits (the only strings the
    validators pass to [int], behind [isdigit]). *)
Definition int (s : string) : Z :=
  match NilEmpty.uint_of_string s with
  | Some d => Z.of_N (N.of_uint d)
  | None => 0
  end.

(** [str(n)] for an [int]. *)
Definition str (n : Z) : string := NilZero.string_of_int (Z.to_int n).

(** [s] holds no line feed. *)
Fixpoint no_newline (s : string) : bool :=
  match s with
  | "" => true
  | String c s' => negb (Ascii.eqb c newline) && no_newline s'
  end.

(** A line without its terminator ([line.rstrip('\n')] on a line that
    [readlines] gave). *)
Fixpoint content (line : string) : string :=
  match line with
  | "" => ""
  | String c s' =>
      if Ascii.eqb c newline && String.eqb s' "" then ""
      else String c (content s')
  end.

(** [s.split(sep)] for a one-character separator: the fields between the
    occurrences of [sep], at least one field. *)
Fixpoint split_char (sep : ascii) (s : string) : list string :=
  match s with
  | "" => [""]
  | String c s' =>
      if Ascii.eqb c sep then "" :: split_char sep s'
      else match split_char sep s' with
           | [] => [String c ""]
           | f :: fs => String c f :: fs
           end
  end.

(** Insertion-ordered [dict] with string keys. *)
Definition dict (V : Type) := list (string * V).

(** [d.get(k)] / [d[k]] *)
Fixpoint dict_get {V} (k : string) (d : dict V) : option V :=
  match d with
  | [] => None
  | (k', v) :: d' => if String.eqb k k' then Some v else dict_get k d'
  end.

(** [k in d] *)
Definition dict_mem {V} (k : string) (d : dict V) : bool :=
  match dict_get k d with Some _ => true | None => false end.

(** [d[k] = v]: an existing key keeps its place, a new key goes last. *)
Fixpoint dict_set {V} (k : string) (v : V) (d : dict V) : dict V :=
  match d with
  | [] => [(k, v)]
  | (k', v') :: d' =>
      if String.eqb k k' then (k', v) :: d'
      else (k', v') :: dict_set k v d'
  end.

(** [{**a, **b}] *)
Definition dict_merge {V} (a b : dict V) : dict V :=
  foldl (fun acc kv => dict_set kv.1 kv.2 acc) a b.

End Py.

(* ===================================================================== *)
(** * BitcoinConfigManager *)
(* ===================================================================== *)

Module Config.

Import Py.
Local Open Scope string_scope.
Local Open Scope list_scope.

(** The directory of [bitcoin.conf]: the file itself (absent when
    [config_path.exists()] is false), the backup copies by file name, and
    the number of times the file was opened for writing. *)
Record FS := mkFS {
  conf : option string;
  backups : gmap string string;
  writes : nat
}.

(** What the environment decides during one [write_config] call: the
    timestamp of [datetime.now()], whether [shutil.copy2] raises, and
    whether reading the file raises (with the text of the exception). *)
Record Env := mkEnv {
  stamp : string;
  copy_fails : bool;
  read_error : option string
}.

(** One step of the loop of [read_config]. *)
Definition read_line (settings : dict string) (line : string) : dict string :=
  let line := strip line in
  if String.eqb line "" || startswith "#" line then settings
  else
    match split_once "=" line with
    | Some (key, value) => dict_set (strip key) (strip value) settings
    | None => settings
    end.

Definition read_lines (lines : list string) : dict string :=
  foldl read_line [] lines.

(** [BitcoinConfigManager.read_config] *)
Definition read_config (fs : FS) : dict string :=
  match conf fs with
  | None => []
  | Some text => read_lines (readlines text)
  end.

(** [BitcoinConfigManager.backup_config] *)
Definition backup_config (e : Env) (fs : FS) : FS :=
  match conf fs with
  | None => fs
  | Some text =>
      if copy_fails e then fs
      else {| conf := conf fs;
              backups :=
                <["bitcoin.conf.backup." +:+ stamp e := text]> (backups fs);
              writes := writes fs |}
  end.

(** The key of a line as the loop of [write_config] computes it:
    [stripped.split('=', 1)[0].strip()] for a line that is neither blank
    nor a comment and contains ['=']; [None] for every line the loop
    copies without looking for a key. *)
Definition line_key (line : string) : option string :=
  let stripped := strip line in
  if String.eqb stripped "" || startswith "#" stripped then None
  else
    match split_once "=" stripped with
    | Some (key, _) => Some (strip key)
    | None => None
    end.

(** One step of the first loop of [write_config], on the pair
    [(new_lines, updated_keys)]. *)
Definition rewrite_line (settings : dict string)
    (acc : list string * gset string) (line : string)
  : list string * gset string :=
  let '(new_lines, updated_keys) := acc in
  let stripped := strip line in
  if String.eqb stripped "" || startswith "#" stripped then
    (new_lines ++ [line], updated_keys)
  else
    match split_once "=" stripped with
    | Some (k, _) =>
        let key := strip k in
        match dict_get key settings with
        | Some value =>
            (new_lines ++ [key +:+ "=" +:+ value +:+ nl],
             {[key]} ∪ updated_keys)
        | None => (new_lines ++ [line], updated_keys)
        end
    | None => (new_lines ++ [line], updated_keys)
    end.

(** One step of the second loop of [write_config]. *)
Definition append_setting (updated_keys : gset string)
    (new_lines : list string) (kv : string * string) : list string :=
  let '(key, value) := kv in
  if decide (key ∈ updated_keys) then new_lines
  else new_lines
       ++ [nl +:+ "# Added by NodePulse" +:+ nl
              +:+ key +:+ "=" +:+ value +:+ nl].

(** The list handed to [f.writelines] for the list read by
    [f.readlines()]. *)
Definition rewrite_lines (settings : dict string) (lines : list string)
  : list string :=
  let '(new_lines, updated_keys) :=
    foldl (rewrite_line settings) ([], ∅) lines in
  foldl (append_setting updated_keys) new_lines settings.

(** [BitcoinConfigManager.write_config] *)
Definition write_config (settings : dict string) (e : Env) (fs : FS)
  : (bool * string) * FS :=
  match conf fs with
  | None => ((false, "Config file not found"), fs)
  | Some _ =>
      let fs1 := backup_config e fs in
      match read_error e, conf fs1 with
      | Some err, _ => ((false, "Error writing config: " +:+ err), fs1)
      | None, None => ((false, "Config file not found"), fs1)  (* not reached *)
      | None, Some text =>
          let new_lines := rewrite_lines settings (readlines text) in
          ((true, "Configuration saved successfully"),
           {| conf := Some (writelines new_lines);
              backups := backups fs1;
              writes := S (writes fs1) |})
      end
  end.

(** The table [validations] of [validate_setting]. *)
Definition validations (key : string) : option (string -> bool) :=
  if String.eqb key "prune" then
    Some (fun v => String.eqb v "0" || (isdigit v && (550 <=? int v)%Z))
  else if String.eqb key "maxconnections" then
    Some (fun v => isdigit v && ((8 <=? int v) && (int v <=? 125))%Z)
  else if String.eqb key "dbcache" then
    Some (fun v => isdigit v && ((4 <=? int v) && (int v <=? 16384))%Z)
  else if String.eqb key "rpcport" then
    Some (fun v => isdigit v && ((1024 <=? int v) && (int v <=? 65535))%Z)
  else None.

(** [BitcoinConfigManager.validate_setting] *)
Definition validate_setting (key value : string) : bool * string :=
  match validations key with
  | Some rule =>
      if rule value then (true, "Valid")
      else (false, "Invalid value for " +:+ key)
  | None => (true, "Valid")
  end.

(** [BitcoinConfigManager.get_default_settings] *)
Definition get_default_settings : dict string :=
  [ ("prune", "0");
    ("maxconnections", "125");
    ("dbcache", "450");
    ("server", "0");
    ("rpcport", "8332") ].

(** ** Views of the two functions used to state their properties *)

(** The pair a line contributes to [read_config], if any. *)
Definition parse_line (line : string) : option (string * string) :=
  let line := strip line in
  if String.eqb line "" || startswith "#" line then None
  else
    match split_once "=" line with
    | Some (key, value) => Some (strip key, strip value)
    | None => None
    end.

(** The value the lines bind to [k], the last binding winning; [acc] is
    the value bound before the line. *)
Definition bind (k : string) (acc : option string) (line : string)
  : option string :=
  match parse_line line with
  | Some (k', v) => if String.eqb k k' then Some v else acc
  | None => acc
  end.

Definition scan (k : string) (acc : option string) (text : string)
  : option string :=
  foldl (bind k) acc (readlines text).

(** What the first loop of [write_config] puts in the place of a line. *)
Definition rewritten (settings : dict string) (line : string) : string :=
  match line_key line with
  | Some key =>
      match dict_get key settings with
      | Some value => key +:+ "=" +:+ value +:+ nl
      | None => line
      end
  | None => line
  end.

(** The keys the first loop of [write_config] records for a line. *)
Definition hit (settings : dict string) (line : string) : gset string :=
  match line_key line with
  | Some key => if dict_mem key settings then {[key]} else ∅
  | None => ∅
  end.

(** The text [write_config] appends for a setting that no line had. *)
Definition added_line (key value : string) : string :=
  nl +:+ "# Added by NodePulse" +:+ nl +:+ key +:+ "=" +:+ value +:+ nl.

Definition added (keys : gset string) (settings : dict string)
  : list string :=
  flat_map (λ kv, if decide (kv.1 ∈ keys) then []
                  else [added_line kv.1 kv.2])
           settings.

(** No value of [settings] spans several lines. *)
Definition values_one_line (settings : dict string) : Prop :=
  Forall (λ kv, no_newline kv.2 = true) settings.

(** The settings of the round-trip scenario, in the order of the dict
    literal. *)
Definition staged : dict string :=
  [("prune", "0"); ("maxconnections", "50")].

(** A setting whose line [key=value] holds no line feed and is read back
    by [read_config] as the same key and value. *)
Definition round_trips (kv : string * string) : Prop :=
  no_newline kv.1 = true ∧ no_newline kv.2 = true ∧
  parse_line (kv.1 +:+ "=" +:+ kv.2) = Some kv.

End Config.

(* ===================================================================== *)
(** * BitcoinNodeData and BitcoinNodeController: the RPC boundary *)
(* ===================================================================== *)

Module Rpc.

(** Reply payloads the dashboard stores without reading. *)
#[warnings="-register-all"]
Inductive json :=
  | JNull
  | JBool (b : bool)
  | JInt (n : Z)
  | JStr (s : string)
  | JList (items : list json)
  | JDict (fields : list (string * json)).

(** How one spawn of [bitcoin-cli] ends.  [Exited rc parsed]: the process
    ended within the timeout with return code [rc], and decoding its
    standard output gave [parsed] ([None] when the decoder raises, that is
    on malformed output).  [TimedOut]: [asyncio.wait_for] raised.
    [SpawnFailed]: the process could not be created. *)
Inductive outcome (A : Type) :=
  | Exited (returncode : Z) (parsed : option A)
  | TimedOut
  | SpawnFailed.
Arguments Exited {A} _ _.
Arguments TimedOut {A}.
Arguments SpawnFailed {A}.

(** [BitcoinNodeData.run_command]: the decoded reply on return code 0,
    [None] on a non-zero return code and on every exception. *)
Definition run_command {A} (o : outcome A) : option A :=
  match o with
  | Exited rc parsed => if (rc =? 0)%Z then parsed else None
  | TimedOut => None
  | SpawnFailed => None
  end.

(** The keys of the [getblockchaininfo] reply that the orchestrator reads,
    each optional because it is read with [dict.get] and a default; the
    other keys of the reply are kept in [bi_rest]. *)
Record BlockchainInfo := mkBlockchainInfo {
  bi_blocks : option Z;
  bi_headers : option Z;
  bi_initialblockdownload : option bool;
  bi_rest : list (string * json)
}.

(** The [getnetworkinfo] reply, in the same way. *)
Record NetworkInfo := mkNetworkInfo {
  ni_connections : option Z;
  ni_rest : list (string * json)
}.

(** [if network_info:] on a dict: true unless the dict is empty. *)
Definition network_info_truthy (ni : NetworkInfo) : bool :=
  match ni_connections ni, ni_rest ni with
  | None, [] => false
  | _, _ => true
  end.

(** The failures of a query: a non-zero return code, malformed output, a
    timeout, or no process at all. *)
Definition fails {A} (o : outcome A) : bool :=
  match o with
  | Exited rc (Some _) => negb (rc =? 0)%Z
  | Exited _ None => true
  | TimedOut => true
  | SpawnFailed => true
  end.

Definition get_blockchain_info (o : outcome BlockchainInfo) := run_command o.
Definition get_network_info (o : outcome NetworkInfo) := run_command o.
Definition get_peer_info (o : outcome (list json)) := run_command o.
Definition get_mempool_info (o : outcome (list (string * json))) :=
  run_command o.

(** [BitcoinNodeData.get_uptime]: the reply, or the integer 0 when
    [run_command] gave [None]. *)
Definition get_uptime (o : outcome Z) : option Z :=
  match run_command o with
  | Some result => Some result
  | None => Some 0%Z
  end.

(** [BitcoinNodeController.get_uptime]: here the decoder is
    [int(stdout.decode().strip())], and a failure gives [None]. *)
Definition controller_get_uptime (o : outcome Z) : option Z :=
  match o with
  | Exited rc parsed => if (rc =? 0)%Z then parsed else None
  | TimedOut => None
  | SpawnFailed => None
  end.

End Rpc.

(* ===================================================================== *)
(** * NodePulseApp: the refresh cycle *)
(* ===================================================================== *)

Module App.

Import Rpc.
Local Open Scope string_scope.
Local Open Scope list_scope.

(** One entry of [AlertsPanel.alerts]. *)
Record Alert := mkAlert {
  a_time : string;
  message : string;
  level : string
}.

(** [AlertsPanel.add_alert]; [clock] is [datetime.now()] as ["%H:%M:%S"]. *)
Definition add_alert (clock message level : string) (alerts : list Alert)
  : list Alert :=
  let alerts' := alerts ++ [mkAlert clock message level] in
  drop (length alerts' - 5) alerts'.

(** The data fields of [DashboardPanel]. *)
Record Dashboard := mkDashboard {
  d_node_running : bool;
  d_blockchain_info : option BlockchainInfo;
  d_network_info : option NetworkInfo;
  d_uptime : option Z
}.

(** [DashboardPanel.__init__] *)
Definition dashboard_init : Dashboard :=
  mkDashboard false None None (Some 0%Z).

(** One slot of [asyncio.gather(..., return_exceptions=True)]: the
    coroutine ran the command to some outcome, or an exception escaped it
    and the slot holds the exception object. *)
Inductive task (A : Type) :=
  | Ran (o : outcome A)
  | Raised.
Arguments Ran {A} _.
Arguments Raised {A}.

(** What one refresh cycle reads from outside the application. *)
Record Cycle := mkCycle {
  now : Z;                      (* datetime.now(), microseconds *)
  clock : string;               (* the same as "%H:%M:%S" *)
  active_tab : string;
  is_running : bool;            (* controller.is_running() *)
  q_blockchain : task BlockchainInfo;
  q_network : task NetworkInfo;
  q_peers : task (list json);
  q_mempool : task (list (string * json));
  q_uptime : task Z
}.

(** The locals of [refresh_data] once the block [# Handle exceptions] has
    run: the aggregate of the cycle. *)
Record Snapshot := mkSnapshot {
  node_running : bool;
  blockchain_info : option BlockchainInfo;
  network_info : option NetworkInfo;
  peer_info : option (list json);
  mempool_info : option (list (string * json));
  uptime : option Z
}.

(** A gathered slot with [if isinstance(x, Exception): x = default]. *)
Definition settle {A B} (call : outcome A -> option B) (default : option B)
    (t : task A) : option B :=
  match t with
  | Ran o => call o
  | Raised => default
  end.

(** The dispatch phase of [refresh_data]. *)
Definition gather (c : Cycle) : Snapshot :=
  {| node_running := is_running c;
     blockchain_info := settle get_blockchain_info None (q_blockchain c);
     network_info := settle get_network_info None (q_network c);
     peer_info := settle get_peer_info None (q_peers c);
     mempool_info := settle get_mempool_info None (q_mempool c);
     uptime := settle get_uptime (Some 0%Z) (q_uptime c) |}.

(** The state of [NodePulseApp] that [refresh_data] reads and writes. *)
Record State := mkState {
  tracker : Tracker.SyncStatsTracker;
  last_peer_count : option Z;
  node_was_responsive : bool;
  alerts_panel : list Alert;
  dashboard_panel : Dashboard
}.

(** [NodePulseApp.__init__], with the alert of [on_mount]. *)
Definition init (now0 : Z) (clock0 : string) : State :=
  {| tracker := Tracker.init now0 60;
     last_peer_count := None;
     node_was_responsive := true;
     alerts_panel := add_alert clock0 "NodePulse v1.3 started" "success" [];
     dashboard_panel := dashboard_init |}.

(** A state together with the alerts raised so far in the running cycle,
    oldest first. *)
Definition Run : Type := State * list Alert.

(** [self.alerts_panel.add_alert(message, level)] inside a cycle. *)
Definition alert (c : Cycle) (message level : string) (r : Run) : Run :=
  let '(s, out) := r in
  ({| tracker := tracker s;
      last_peer_count := last_peer_count s;
      node_was_responsive := node_was_responsive s;
      alerts_panel := add_alert (clock c) message level (alerts_panel s);
      dashboard_panel := dashboard_panel s |},
   out ++ [mkAlert (clock c) message level]).

Definition set_responsive (b : bool) (r : Run) : Run :=
  let '(s, out) := r in
  ({| tracker := tracker s;
      last_peer_count := last_peer_count s;
      node_was_responsive := b;
      alerts_panel := alerts_panel s;
      dashboard_panel := dashboard_panel s |}, out).

Definition set_tracker (t : Tracker.SyncStatsTracker) (r : Run) : Run :=
  let '(s, out) := r in
  ({| tracker := t;
      last_peer_count := last_peer_count s;
      node_was_responsive := node_was_responsive s;
      alerts_panel := alerts_panel s;
      dashboard_panel := dashboard_panel s |}, out).

Definition set_last_peer_count (n : Z) (r : Run) : Run :=
  let '(s, out) := r in
  ({| tracker := tracker s;
      last_peer_count := Some n;
      node_was_responsive := node_was_responsive s;
      alerts_panel := alerts_panel s;
      dashboard_panel := dashboard_panel s |}, out).

(** [self.dashboard_panel.update_data(...)] *)
Definition update_dashboard (snap : Snapshot) (r : Run) : Run :=
  let '(s, out) := r in
  ({| tracker := tracker s;
      last_peer_count := last_peer_count s;
      node_was_responsive := node_was_responsive s;
      alerts_panel := alerts_panel s;
      dashboard_panel :=
        mkDashboard (node_running snap) (blockchain_info snap)
                    (network_info snap) (uptime snap) |}, out).

(** The sparkle that ends the sync-completed message (U+1F389 in UTF-8). *)
Definition party : string :=
  String (ascii_of_nat 240) (String (ascii_of_nat 159)
    (String (ascii_of_nat 142) (String (ascii_of_nat 137) ""))).

(** The peer-count block of [refresh_data]. *)
Definition peer_step (c : Cycle) (snap : Snapshot) (r : Run) : Run :=
  match network_info snap with
  | Some ni =>
      if network_info_truthy ni then
        let peer_count := default 0%Z (ni_connections ni) in
        let r1 :=
          match last_peer_count r.1 with
          | Some last =>
              if (peer_count <? 3)%Z && (3 <=? last)%Z then
                alert c ("Low peer count: " +:+ Py.str peer_count) "warning" r
              else if (3 <=? peer_count)%Z && (last <? 3)%Z then
                alert c ("Peer count recovered: " +:+ Py.str peer_count)
                      "success" r
              else r
          | None => r
          end in
        set_last_peer_count peer_count r1
      else r
  | None => r
  end.

(** [NodePulseApp.refresh_data], up to and including the peer-count block.
    What follows in the source hands the gathered values to the panels of
    the visible tab and writes none of the fields of [State]. *)
Definition refresh_data (c : Cycle) (s : State) : Run :=
  let snap := gather c in
  let r0 : Run := (s, []) in
  let r1 := if String.eqb (active_tab c) "home"
            then update_dashboard snap r0 else r0 in
  match blockchain_info snap with
  | None =>
      if node_was_responsive r1.1 then
        set_responsive false (alert c "Node not responding!" "error" r1)
      else r1
  | Some bi =>
      let r2 :=
        if negb (node_was_responsive r1.1) then
          set_responsive true (alert c "Node connection restored" "success" r1)
        else r1 in
      let blocks := default 0%Z (bi_blocks bi) in
      let headers := default 0%Z (bi_headers bi) in
      let is_syncing := default false (bi_initialblockdownload bi) in
      let '(sync_completed, t') :=
        Tracker.update (tracker r2.1) (now c) blocks headers is_syncing in
      let r3 := set_tracker t' r2 in
      let r4 :=
        if Tracker.truthy sync_completed then
          alert c ("Blockchain sync completed! " +:+ party) "success" r3
        else r3 in
      peer_step c snap r4
  end.

(** Whether the primary chain-state query of the cycle gave a reply. *)
Definition chain_ok (c : Cycle) : bool :=
  match blockchain_info (gather c) with
  | Some _ => true
  | None => false
  end.

(** The alerts of [refresh_data], told apart by their text. *)
Inductive Kind :=
  | NodeUnresponsive
  | ConnectionRestored
  | SyncCompleted
  | LowPeerCount
  | PeerRecovered
  | Other.

#[global] Instance Kind_eq_dec : EqDecision Kind.
Proof. solve_decision. Defined.

Definition kind (a : Alert) : Kind :=
  if String.eqb (message a) "Node not responding!" then NodeUnresponsive
  else if String.eqb (message a) "Node connection restored"
  then ConnectionRestored
  else if Py.startswith "Blockchain sync completed!" (message a)
  then SyncCompleted
  else if Py.startswith "Low peer count: " (message a) then LowPeerCount
  else if Py.startswith "Peer count recovered: " (message a)
  then PeerRecovered
  else Other.

(** How many alerts of kind [k] a cycle raised. *)
Definition count (k : Kind) (out : list Alert) : nat :=
  length (filter (λ a, kind a = k) out).

(** ** The alerts of a cycle, part by part *)

Definition restored_alerts (c : Cycle) (s : State) : list Alert :=
  if node_was_responsive s then []
  else [mkAlert (clock c) "Node connection restored" "success"].

Definition sync_alerts (c : Cycle) (s : State) (bi : BlockchainInfo)
  : list Alert :=
  if Tracker.truthy
       (Tracker.py_and_not (Tracker.was_syncing (tracker s))
          (default false (bi_initialblockdownload bi)))
  then [mkAlert (clock c) ("Blockchain sync completed! " +:+ party) "success"]
  else [].

(** The alerts of the peer-count block for the count [n], the count of
    the previous cycle being [last]. *)
Definition peer_alerts (c : Cycle) (last : option Z) (n : Z) : list Alert :=
  match last with
  | Some p =>
      if (n <? 3)%Z && (3 <=? p)%Z then
        [mkAlert (clock c) ("Low peer count: " +:+ Py.str n) "warning"]
      else if (3 <=? n)%Z && (p <? 3)%Z then
        [mkAlert (clock c) ("Peer count recovered: " +:+ Py.str n) "success"]
      else []
  | None => []
  end.

Definition peer_part (c : Cycle) (s : State) : list Alert :=
  match network_info (gather c) with
  | Some ni =>
      if network_info_truthy ni
      then peer_alerts c (last_peer_count s) (default 0%Z (ni_connections ni))
      else []
  | None => []
  end.

Definition peer_count_after (c : Cycle) (s : State) : option Z :=
  match network_info (gather c) with
  | Some ni =>
      if network_info_truthy ni then Some (default 0%Z (ni_connections ni))
      else last_peer_count s
  | None => last_peer_count s
  end.

(** Edge-triggering of the two responsiveness alerts: [prev] tells whether
    the chain-state query of the previous cycle replied. *)
Definition edge_counts (prev : bool) (c : Cycle) (out : list Alert) : Prop :=
  count NodeUnresponsive out =
    (if negb (chain_ok c) && prev then 1 else 0)%nat ∧
  count ConnectionRestored out =
    (if chain_ok c && negb prev then 1 else 0)%nat.

(** A run of consecutive cycles: the alerts of each cycle, cycle by cycle,
    and the state after the last one. *)
Fixpoint run (s : State) (cs : list Cycle) : list (list Alert) * State :=
  match cs with
  | [] => ([], s)
  | c :: cs' =>
      let '(s1, out) := refresh_data c s in
      let '(outs, s2) := run s1 cs' in
      (out :: outs, s2)
  end.

End App.

(* ===================================================================== *)
(** * SettingsPanel: staging and applying configuration changes *)
(* ===================================================================== *)

Module Settings.

Import Py.
Local Open Scope string_scope.
Local Open Scope list_scope.

(** The data fields of [SettingsPanel]; [has_alerts_panel] tells whether
    [self.alerts_panel] has been set (it is [None] until the application
    is mounted). *)
Record Panel := mkPanel {
  current_settings : dict string;
  pending_changes : dict string;
  has_alerts_panel : bool
}.

(** Commands sent to the node controller. *)
Inductive NodeCommand :=
  | StopNode
  | Sleep (seconds : Z)
  | StartNode.

(** What the user and the environment decide during one action. *)
Record Input := mkInput {
  confirmed : bool;                 (* answer to the first dialog *)
  env : Config.Env;
  node_is_running : bool;           (* controller.is_running() *)
  restart_confirmed : bool;         (* answer to the restart dialog *)
  stop_ok : bool;                   (* first component of stop_node() *)
  start_result : bool * string      (* start_node() *)
}.

(** What an action leaves behind: the panel, the directory of the
    configuration file, the alerts it raised (message and level, oldest
    first) and the commands it sent to the node. *)
Record Effect := mkEffect {
  panel : Panel;
  fs : Config.FS;
  alerts : list (string * string);
  commands : list NodeCommand
}.

(** [if self.alerts_panel: self.alerts_panel.add_alert(message, level)] *)
Definition notify (p : Panel) (message level : string)
  : list (string * string) :=
  if has_alerts_panel p then [(message, level)] else [].

(** [SettingsPanel.load_config] *)
Definition load_config (p : Panel) (fs : Config.FS) : Panel :=
  {| current_settings := Config.read_config fs;
     pending_changes := [];
     has_alerts_panel := has_alerts_panel p |}.

(** The loop [# Validate all changes]: the message of the first entry
    that fails, in the order of the dict. *)
Fixpoint first_invalid (changes : dict string) : option string :=
  match changes with
  | [] => None
  | (key, value) :: rest =>
      let '(valid, msg) := Config.validate_setting key value in
      if valid then first_invalid rest else Some msg
  end.

(** The check mark that ends the success messages (U+2713 in UTF-8). *)
Definition check_mark : string :=
  String (ascii_of_nat 226) (String (ascii_of_nat 156)
    (String (ascii_of_nat 147) "")).

(** The restart offered by [apply_changes] after a successful write. *)
Definition restart_node (p : Panel) (i : Input)
  : list (string * string) * list NodeCommand :=
  if node_is_running i && restart_confirmed i then
    let a1 := notify p "Restarting node..." "info" in
    let c1 := if stop_ok i then [StopNode; Sleep 3] else [StopNode] in
    let '(started, msg) := start_result i in
    let a2 :=
      if started then notify p ("Node restarted " +:+ check_mark) "success"
      else notify p ("Failed to start: " +:+ String.substring 0 50 msg)
                  "error" in
    (a1 ++ a2, c1 ++ [StartNode])
  else ([], []).

(** [SettingsPanel.apply_changes] *)
Definition apply_changes (i : Input) (p : Panel) (fs : Config.FS) : Effect :=
  match pending_changes p with
  | [] => mkEffect p fs (notify p "No changes to apply" "warning") []
  | _ =>
      if negb (confirmed i) then mkEffect p fs [] []
      else
        match first_invalid (pending_changes p) with
        | Some msg =>
            mkEffect p fs (notify p ("Validation failed: " +:+ msg) "error") []
        | None =>
            let new_settings :=
              dict_merge (current_settings p) (pending_changes p) in
            let '((success, message), fs') :=
              Config.write_config new_settings (env i) fs in
            if success then
              let a1 := notify p ("Configuration saved " +:+ check_mark)
                               "success" in
              let '(a2, cmds) := restart_node p i in
              mkEffect (load_config p fs') fs' (a1 ++ a2) cmds
            else
              mkEffect p fs' (notify p ("Failed: " +:+ message) "error") []
        end
  end.

(** [SettingsPanel.reset_to_defaults] *)
Definition reset_to_defaults (i : Input) (p : Panel) (fs : Config.FS)
  : Effect :=
  if negb (confirmed i) then mkEffect p fs [] []
  else
    let defaults := Config.get_default_settings in
    let '((success, message), fs') :=
      Config.write_config defaults (env i) fs in
    if success then
      mkEffect (load_config p fs') fs'
               (notify p ("Reset to defaults " +:+ check_mark) "success") []
    else
      mkEffect p fs' (notify p ("Failed: " +:+ message) "error") [].

(** ** Staging *)

(** The workers [on_click] starts. *)
Inductive Worker :=
  | ApplyChanges
  | ResetToDefaults.

(** [self.pending_changes[key] = label_id.split("-")[1]] *)
Definition stage (key label_id : string) (p : Panel) : Panel :=
  match split_char "-" label_id !! 1%nat with
  | Some value =>
      {| current_settings := current_settings p;
         pending_changes := dict_set key value (pending_changes p);
         has_alerts_panel := has_alerts_panel p |}
  | None => p      (* not reached: the label holds a ["-"] *)
  end.

Definition stage_value (key value : string) (p : Panel) : Panel :=
  {| current_settings := current_settings p;
     pending_changes := dict_set key value (pending_changes p);
     has_alerts_panel := has_alerts_panel p |}.

(** [SettingsPanel.on_click] for a click on a label whose id is
    [label_id] ([None] for a label without id): the panel, the alerts
    raised, and the worker started, if any. *)
Definition on_click (label_id : option string) (p : Panel) (fs : Config.FS)
  : Panel * list (string * string) * option Worker :=
  match label_id with
  | None => (p, [], None)
  | Some "" => (p, [], None)
  | Some id =>
      if startswith "prune-" id then (stage "prune" id p, [], None)
      else if startswith "maxconn-" id
      then (stage "maxconnections" id p, [], None)
      else if startswith "dbcache-" id then (stage "dbcache" id p, [], None)
      else if String.eqb id "rpc-enable"
      then (stage_value "server" "1" p, [], None)
      else if String.eqb id "rpc-disable"
      then (stage_value "server" "0" p, [], None)
      else if String.eqb id "action-apply" then (p, [], Some ApplyChanges)
      else if String.eqb id "action-reset" then (p, [], Some ResetToDefaults)
      else if String.eqb id "action-reload"
      then (load_config p fs, notify p "Configuration reloaded" "info", None)
      else (p, [], None)
  end.

(** The ids of the option labels that [SettingsPanel.compose] yields. *)
Definition option_labels : list string :=
  [ "prune-0"; "prune-4096"; "prune-10240"; "prune-51200";
    "maxconn-10"; "maxconn-25"; "maxconn-50"; "maxconn-125";
    "dbcache-300"; "dbcache-450"; "dbcache-1000"; "dbcache-2000";
    "rpc-enable"; "rpc-disable" ].

(** A pending change set that [apply_changes] can write and read back:
    a dict (no key twice) whose entries pass validation and round-trip
    through the file. *)
Definition stageable (changes : dict string) : Prop :=
  NoDup changes.*1 ∧ first_invalid changes = None ∧
  Forall Config.round_trips changes.

End Settings.

(* ===================================================================== *)
(** * ControlsPanel: start, stop and restart *)
(* ===================================================================== *)

Module Controls.

Import Settings.
Local Open Scope string_scope.
Local Open Scope list_scope.

(** What the user and the node decide during one action. *)
Record Input := mkInput {
  is_running : bool;                (* controller.is_running() *)
  confirmed : bool;                 (* answer to the dialog *)
  stop_result : bool * string;      (* controller.stop_node() *)
  start_result : bool * string      (* controller.start_node() *)
}.

(** The alerts raised (message and level, oldest first) and the commands
    sent to the node. *)
Definition Effect : Type := list (string * string) * list NodeCommand.



(** [ControlsPanel.restart_node] *)
Definition restart_node (i : Input) : Effect :=
  if confirmed i then
    let '(a1, c1) :=
      if is_running i then
        if (stop_result i).1
        then ([("Node stopped, waiting 3s...", "info")], [StopNode; Sleep 3])
        else ([], [StopNode])
      else ([], []) in
    let '(success, message) := start_result i in
    ([("Restarting node...", "info")] ++ a1
     ++ [if success
         then ("Node restarted successfully " +:+ check_mark, "success")
         else ("Failed to restart: " +:+ String.substring 0 50 message,
               "error")],
     c1 ++ [StartNode])
  else ([], []).

End Controls.

(* ===================================================================== *)
(** * RecentBlocksPanel *)
(* ===================================================================== *)

Module Blocks.

Import Rpc.
Local Open Scope list_scope.

(** The keys of the [getblock] reply that the panel reads. *)
Record BlockReply := mkBlockReply {
  br_time : option Z;
  br_nTx : option Z;
  br_size : option Z;
  br_rest : list (string * json)
}.

(** [if block:] on a dict. *)
Definition reply_truthy (b : BlockReply) : bool :=
  match br_time b, br_nTx b, br_size b, br_rest b with
  | None, None, None, [] => false
  | _, _, _, _ => true
  end.

(** One entry of [RecentBlocksPanel.blocks]. *)
Record Block := mkBlock {
  height : Z;
  hash : string;
  time : Z;
  tx : Z;
  size : Q                          (* kilobytes *)
}.

Record Panel := mkPanel {
  blocks : list Block;
  cached_height : option Z
}.

(** [RecentBlocksPanel.__init__] *)
Definition init : Panel := mkPanel [] None.

(** How the node answers the two queries of one [update_data] call. *)
Record Node := mkNode {
  block_hash : Z → outcome string;            (* getblockhash <height> *)
  block : string → outcome BlockReply         (* getblock <hash> 1 *)
}.

(** [[current_height - i for i in range(3) if current_height - i >= 0]] *)
Definition heights (current_height : Z) : list Z :=
  filter (λ h, 0 <= h)%Z
    ((λ i, current_height - i)%Z <$> [0; 1; 2]%Z).

(** The pairs [(h, hash_val)] with a truthy [hash_val]. *)
Definition valid_hashes (node : Node) (hs : list Z) : list (Z * string) :=
  omap (λ h, match run_command (block_hash node h) with
             | Some hash_val =>
                 if String.eqb hash_val "" then None else Some (h, hash_val)
             | None => None
             end) hs.

(** The entries made from the replies to [getblock]. *)
Definition new_blocks (node : Node) (valid : list (Z * string))
  : list Block :=
  omap (λ '(h, block_hash),
          match run_command (block node block_hash) with
          | Some reply =>
              if reply_truthy reply then
                Some (mkBlock h block_hash
                        (default 0%Z (br_time reply))
                        (default 0%Z (br_nTx reply))
                        (inject_Z (default 0%Z (br_size reply)) / 1024)%Q)
              else None
          | None => None
          end) valid.

(** [RecentBlocksPanel.update_data] *)
Definition update_data (node : Node) (current_height : Z) (p : Panel)
  : Panel :=
  if (current_height =? 0)%Z then p
  else
    match cached_height p, blocks p with
    | Some cached, _ :: _ =>
        if (cached =? current_height)%Z then p
        else mkPanel (new_blocks node
                        (valid_hashes node (heights current_height)))
                     (Some current_height)
    | _, _ =>
        mkPanel (new_blocks node (valid_hashes node (heights current_height)))
                (Some current_height)
    end.

(** What holds of the list the panel shows, [c] being the cached height:
    at most three blocks, from the tip downwards, none below the tip
    minus two or below the genesis block. *)
Definition listed_from (c : Z) (bs : list Block) : Prop :=
  (length bs ≤ 3)%nat ∧
  StronglySorted (λ a b, height b < height a)%Z bs ∧
  Forall (λ b, 0 <= height b ∧ c - 2 <= height b <= c)%Z bs.

Definition well_listed (p : Panel) : Prop :=
  match cached_height p with
  | Some c => listed_from c (blocks p)
  | None => blocks p = []
  end.

End Blocks.

(* ===================================================================== *)
(** * Concrete inputs *)
(* ===================================================================== *)

Module Examples.

Import Py.
Local Open Scope string_scope.
Local Open Scope list_scope.

(** Two samples one hour apart, six blocks gained. *)
Definition steady_calls : list Tracker.Call :=
  [ Tracker.mkCall 0 100 110 true; Tracker.mkCall 3600000000 106 110 true ].

(** Two samples one hour apart, the tip ten blocks lower after a reorg. *)
Definition reorg_calls : list Tracker.Call :=
  [ Tracker.mkCall 0 100 100 true; Tracker.mkCall 3600000000 90 100 true ].

(** A sync that ends at the third call. *)
Definition sync_calls : list Tracker.Call :=
  [ Tracker.mkCall 0 100 110 true;
    Tracker.mkCall 10000000 105 110 true;
    Tracker.mkCall 20000000 110 110 false;
    Tracker.mkCall 30000000 111 111 false ].

Definition chain_reply : Rpc.BlockchainInfo :=
  Rpc.mkBlockchainInfo (Some 800000) (Some 800000) (Some false) [].

Definition replied {A} (v : A) : App.task A := App.Ran (Rpc.Exited 0 (Some v)).

(** A cycle in which every query replies and the node has [n] peers. *)
Definition peer_cycle (n : Z) : App.Cycle :=
  App.mkCycle 0 "12:00:00" "home" true
    (replied chain_reply) (replied (Rpc.mkNetworkInfo (Some n) []))
    (replied []) (replied []) (replied 3600).

(** A cycle in which the chain-state query times out and the other
    queries reply. *)
Definition chain_down_cycle : App.Cycle :=
  App.mkCycle 0 "12:00:10" "home" true
    (App.Ran Rpc.TimedOut) (replied (Rpc.mkNetworkInfo (Some 8) []))
    (replied []) (replied []) (replied 3600).

(** A cycle in which every query times out. *)
Definition down_cycle : App.Cycle :=
  App.mkCycle 0 "12:00:20" "home" false
    (App.Ran Rpc.TimedOut) (App.Ran Rpc.TimedOut) (App.Ran Rpc.TimedOut)
    (App.Ran Rpc.TimedOut) (App.Ran Rpc.TimedOut).

Definition quiet_env : Config.Env := Config.mkEnv "20240101_120000" false None.

Definition conf_head : string := "# Bitcoin Core settings" +:+ nl.
Definition conf_tail : string := "# end of file" +:+ nl +:+ "txindex=1" +:+ nl.

(** A configuration file with comments, the connection cap and an
    unrelated key. *)
Definition conf_fs : Config.FS :=
  Config.mkFS
    (Some (conf_head +:+ "maxconnections=125" +:+ nl +:+ conf_tail)) ∅ 0.

(** A configuration file that sets one key twice. *)
Definition twice_fs : Config.FS :=
  Config.mkFS
    (Some ("dbcache=450" +:+ nl +:+ "# tuned" +:+ nl +:+ "dbcache=900" +:+ nl))
    ∅ 0.

Definition yes : Settings.Input :=
  Settings.mkInput true quiet_env false false true (true, "").

Definition bad_panel : Settings.Panel :=
  Settings.mkPanel [("maxconnections", "125")]
    [("dbcache", "900"); ("maxconnections", "200")] true.


(** A panel with loaded settings and one valid pending change. *)
Definition good_panel : Settings.Panel :=
  Settings.mkPanel [("maxconnections", "125"); ("txindex", "1")]
    [("dbcache", "1000")] true.

(** A node that answers every query but the hash of block 6, which times
    out; the hash of a block is its height in decimal. *)
Definition short_node : Blocks.Node :=
  Blocks.mkNode
    (λ h, if (h =? 6)%Z then Rpc.TimedOut else Rpc.Exited 0 (Some (str h)))
    (λ _, Rpc.Exited 0
            (Some (Blocks.mkBlockReply (Some 1700000000%Z) (Some 12%Z)
                     (Some 2048%Z) []))).

End Examples.

(* ===================================================================== *)
(** * Properties of SyncStatsTracker *)
(* ===================================================================== *)

Module TrackerFacts.

Import Tracker.

(** ** The flag returned by [update] *)

Lemma flags_lookup t cs i c :
  cs !! i = Some c →
  flags t cs !! i =
    Some (py_and_not
            match i with
            | O => was_syncing t
            | S j => c_is_syncing <$> cs !! j
            end (c_is_syncing c)).
Proof.
  revert t i. induction cs as [|c0 cs IH]; intros t i Hc; [done|].
  destruct i as [|i]; simpl in *.
  - by inversion Hc.
  - rewrite (IH _ _ Hc). by destruct i.
Qed.

(** C4. In a sequence of [update] calls on a fresh tracker, the flag
    returned by a call is true exactly when the previous call had
    [is_syncing] true and this call has it false; on every other call the
    flag is not true.  The flag of the first call is [None]. *)
Theorem update_flag_is_falling_edge now0 cap (cs : list Call) i c :
  cs !! i = Some c →
  ∃ r, flags (init now0 cap) cs !! i = Some r ∧
       (truthy r = true ↔
        ∃ j p, i = S j ∧ cs !! j = Some p ∧
               c_is_syncing p = true ∧ c_is_syncing c = false) ∧
       (r = None ↔ i = 0%nat).
Proof.
  intros Hc. rewrite (flags_lookup _ _ _ _ Hc). eexists; split; [done|].
  destruct i as [|j]; simpl.
  - split; [|done]. split; [done|]. intros (j & p & ? & _); done.
  - destruct (cs !! j) as [p|] eqn:Hp; simpl.
    + destruct (c_is_syncing p) eqn:Ep, (c_is_syncing c) eqn:Ec; simpl;
        (split; [|done]);
        (split; [try done; intros _; exists j, p; done
                | try done; intros (j' & p' & [= <-] & Hp' & ? & ?);
                  rewrite Hp in Hp'; injection Hp' as <-; congruence]).
    + apply lookup_lt_Some in Hc. apply lookup_ge_None in Hp. lia.
Qed.

Lemma update_flag_is_falling_edge_witness :
  ∃ r, flags (init 0 60) Examples.sync_calls !! 2%nat = Some r ∧
       (truthy r = true ↔
        ∃ j p, 2%nat = S j ∧ Examples.sync_calls !! j = Some p ∧
               c_is_syncing p = true ∧
               c_is_syncing (mkCall 20000000 110 110 false) = false) ∧
       (r = None ↔ 2%nat = 0%nat).
Proof.
  apply (update_flag_is_falling_edge 0 60 Examples.sync_calls 2
           (mkCall 20000000 110 110 false)).
  reflexivity.
Defined.

(** ** The window of [get_blocks_per_hour] *)

Lemma deque_append_drop {A} cap (d : list A) x :
  ∃ k, deque_append cap d x = drop k (d ++ [x]).
Proof.
  unfold deque_append. destruct (cap <? length (d ++ [x]))%nat.
  - exists 1%nat. by destruct (d ++ [x]).
  - by exists 0%nat.
Qed.

Lemma history_update_call t c :
  history (update_call t c).2 =
    deque_append (max_history t) (history t) (sample_of c).
Proof. reflexivity. Qed.

(** The history is always a suffix of the samples fed so far. *)
Lemma history_feed t cs :
  ∃ k, history (feed t cs) = drop k (history t ++ (sample_of <$> cs)).
Proof.
  induction cs as [|c cs IH] using rev_ind.
  - exists 0%nat. by rewrite app_nil_r.
  - destruct IH as [k IH]. unfold feed in *. rewrite foldl_snoc.
    rewrite history_update_call.
    destruct (deque_append_drop
                (max_history (foldl (λ t c, (update_call t c).2) t cs))
                (history (foldl (λ t c, (update_call t c).2) t cs))
                (sample_of c)) as [k' ->].
    rewrite IH, fmap_app, app_assoc. simpl.
    set (L := history t ++ (sample_of <$> cs)).
    destruct (decide (k ≤ length L))%nat.
    + exists (k + k')%nat. rewrite <- drop_drop.
      by rewrite (drop_app_le L [_] k).
    + exists (length L + k')%nat. rewrite (drop_ge L k) by lia.
      rewrite <- drop_drop. by rewrite drop_app_length.
Qed.

Lemma sorted_drop (l : list Z) k :
  StronglySorted Z.le l → StronglySorted Z.le (drop k l).
Proof.
  intros H. rewrite <- (take_drop k l) in H.
  by apply StronglySorted_app_1_r in H.
Qed.

Lemma sorted_head_last (l : list Sample) o n :
  StronglySorted Z.le (time <$> l) →
  head l = Some o → last l = Some n → time o <= time n.
Proof.
  intros Hs Ho Hn. apply head_Some in Ho as [l' ->].
  simpl in Hs. apply StronglySorted_inv in Hs as [_ Hall].
  apply last_Some_elem_of in Hn. apply elem_of_cons in Hn as [->|Hn]; [lia|].
  rewrite Forall_forall in Hall. apply Hall.
  apply list_elem_of_fmap. eauto.
Qed.

Lemma recent_data_ordered now0 cap cs o n :
  time_ordered cs →
  head (recent_data (feed (init now0 cap) cs)) = Some o →
  last (recent_data (feed (init now0 cap) cs)) = Some n →
  time o <= time n.
Proof.
  intros Hs. unfold recent_data.
  destruct (history_feed (init now0 cap) cs) as [k ->]. simpl.
  apply sorted_head_last. rewrite !fmap_drop. do 2 apply sorted_drop.
  rewrite <- list_fmap_compose. exact Hs.
Qed.

(** ** Signs of the rate *)

Lemma time_diff_zero d :
  Qeq_bool (total_seconds d / 3600) 0 = (d =? 0).
Proof.
  unfold Qeq_bool, total_seconds, Qdiv, Qmult, Qinv. simpl.
  destruct (Z.eqb_spec d 0) as [->|Hd]; [done|].
  apply Z.eqb_neq. lia.
Qed.

Lemma time_diff_pos d : 0 < d → (0 < total_seconds d / 3600)%Q.
Proof.
  intros Hd. unfold total_seconds, Qdiv, Qmult, Qinv, Qlt. simpl. lia.
Qed.

Lemma rate_nonneg b d : 0 <= b → 0 < d →
  (0 <= inject_Z b / (total_seconds d / 3600))%Q.
Proof.
  intros Hb Hd. apply Qle_shift_div_l; [by apply time_diff_pos|].
  rewrite Qmult_0_l. unfold Qle. simpl. lia.
Qed.

Lemma rate_neg b d : b < 0 → 0 < d →
  (inject_Z b / (total_seconds d / 3600) < 0)%Q.
Proof.
  intros Hb Hd. apply Qlt_shift_div_r; [by apply time_diff_pos|].
  rewrite Qmult_0_l. unfold Qlt. simpl. lia.
Qed.

(** [get_blocks_per_hour] on a window that has an oldest and a newest
    sample. *)
Lemma blocks_per_hour_window t o n :
  head (recent_data t) = Some o → last (recent_data t) = Some n →
  get_blocks_per_hour t =
    if (length (recent_data t) <? 2)%nat then 0%Q
    else if time n - time o =? 0 then 0%Q
    else (inject_Z (blocks n - blocks o)
          / (total_seconds (time n - time o) / 3600))%Q.
Proof.
  intros Ho Hn. unfold get_blocks_per_hour.
  assert (length (recent_data t) ≤ length (history t))%nat as Hlen.
  { unfold recent_data. rewrite length_drop. lia. }
  destruct (Nat.ltb_spec (length (history t)) 2).
  - destruct (Nat.ltb_spec (length (recent_data t)) 2); [done|lia].
  - destruct (Nat.ltb_spec (length (recent_data t)) 2); [done|].
    rewrite Ho, Hn. by rewrite time_diff_zero.
Qed.

Lemma blocks_per_hour_no_window t :
  head (recent_data t) = None → get_blocks_per_hour t = 0%Q.
Proof.
  intros Ho. unfold get_blocks_per_hour.
  destruct (length (history t) <? 2)%nat; [done|].
  destruct (length (recent_data t) <? 2)%nat; [done|]. by rewrite Ho.
Qed.

Lemma blocks_per_hour_short t :
  (length (history t) < 2)%nat → get_blocks_per_hour t = 0%Q.
Proof.
  intros H. unfold get_blocks_per_hour.
  by destruct (Nat.ltb_spec (length (history t)) 2); [|lia].
Qed.

(** C1, as the code has it.  After any sequence of [update] calls whose
    clock readings do not decrease, [get_blocks_per_hour] is not negative
    provided the newest sample of the trailing window of 12 is not lower
    than its oldest sample; a height that decreased over the window is
    not clamped: with time elapsed, the rate is negative. *)
Theorem blocks_per_hour_sign now0 cap (cs : list Call) :
  time_ordered cs →
  let t := feed (init now0 cap) cs in
  ((∀ o n, head (recent_data t) = Some o → last (recent_data t) = Some n →
           blocks o <= blocks n) →
   (0 <= get_blocks_per_hour t)%Q) ∧
  (∀ o n, head (recent_data t) = Some o → last (recent_data t) = Some n →
          blocks n < blocks o → time o < time n →
          (get_blocks_per_hour t < 0)%Q).
Proof.
  intros Hs t. split.
  - intros Hb. destruct (head (recent_data t)) as [o|] eqn:Ho;
      [|by rewrite blocks_per_hour_no_window].
    destruct (last (recent_data t)) as [n|] eqn:Hn.
    2:{ apply last_None in Hn. by rewrite Hn in Ho. }
    rewrite (blocks_per_hour_window t o n Ho Hn).
    destruct (length (recent_data t) <? 2)%nat; [done|].
    destruct (Z.eqb_spec (time n - time o) 0); [done|].
    pose proof (recent_data_ordered now0 cap cs o n Hs Ho Hn).
    specialize (Hb o n eq_refl eq_refl). apply rate_nonneg; lia.
  - intros o n Ho Hn Hb Ht.
    rewrite (blocks_per_hour_window t o n Ho Hn).
    destruct (Nat.ltb_spec (length (recent_data t)) 2) as [Hlen|Hlen].
    + exfalso. destruct (recent_data t) as [|x [|y l]]; simpl in *;
        [congruence | injection Ho as ->; injection Hn as ->; lia | lia].
    + destruct (Z.eqb_spec (time n - time o) 0); [lia|].
      apply rate_neg; lia.
Qed.

Lemma blocks_per_hour_sign_witness :
  (0 <= get_blocks_per_hour (feed (init 0 60) Examples.steady_calls))%Q.
Proof.
  assert (time_ordered Examples.steady_calls) as Hs.
  { unfold time_ordered. simpl. repeat constructor. lia. }
  apply (proj1 (blocks_per_hour_sign 0 60 Examples.steady_calls Hs)).
  intros o n Ho Hn. vm_compute in Ho, Hn.
  injection Ho as <-. injection Hn as <-. simpl. lia.
Defined.

(** C1, as the specification states it, fails: after a reorg the rate is
    negative. *)
Lemma reorg_gives_negative_rate :
  ¬ (0 <= get_blocks_per_hour (feed (init 0 60) Examples.reorg_calls))%Q.
Proof. vm_compute. intros H. by apply H. Qed.

(** ** The estimate of [get_eta] *)

Lemma quotient_pos a b : 0 < a → (0 < b)%Q → (0 < inject_Z a / b)%Q.
Proof.
  intros Ha Hb. apply Qlt_shift_div_l; [done|].
  rewrite Qmult_0_l. unfold Qlt. simpl. lia.
Qed.

Lemma quotient_neg a b : 0 < a → (b < 0)%Q → (inject_Z a / b < 0)%Q.
Proof.
  intros Ha Hb.
  assert (0 < inject_Z a / - b)%Q as H.
  { apply quotient_pos; [done|]. by apply (Qopp_lt_compat b 0). }
  assert (inject_Z a / b == - (inject_Z a / - b))%Q as ->.
  { field. intros E. rewrite E in Hb. by apply Qlt_irrefl in Hb. }
  by apply (Qopp_lt_compat 0).
Qed.

(** C5, as the code has it.  [get_eta] is absent exactly when the rate is
    0 or [current_blocks >= total_headers]; fewer than two samples give a
    rate of 0, hence no estimate.  Otherwise it is the duration of
    [(total_headers - current_blocks) / rate] hours, which has the sign of
    the rate: positive for a positive rate, negative for the negative
    rate that follows a reorg. *)
Theorem eta_characterisation t cur tot :
  (get_eta t cur tot = None ↔
     (get_blocks_per_hour t == 0)%Q ∨ tot <= cur) ∧
  ((length (history t) < 2)%nat → get_eta t cur tot = None) ∧
  (∀ d, get_eta t cur tot = Some d →
     td_hours d = (inject_Z (tot - cur) / get_blocks_per_hour t)%Q ∧
     ((0 < get_blocks_per_hour t)%Q → (0 < td_hours d)%Q) ∧
     ((get_blocks_per_hour t < 0)%Q → (td_hours d < 0)%Q)).
Proof.
  unfold get_eta.
  destruct (Qeq_bool (get_blocks_per_hour t) 0) eqn:Ez; simpl.
  - apply Qeq_bool_iff in Ez. repeat split; try done. by left.
  - destruct (Z.leb_spec tot cur) as [Hle|Hlt].
    + repeat split; try done. by right.
    + split; [|split].
      * split; [done|]. intros [E|E]; [|lia].
        apply Qeq_bool_iff in E. congruence.
      * intros Hlen. rewrite blocks_per_hour_short in Ez by done. done.
      * intros d [= <-]. simpl. split; [done|].
        split; intros Hs; [apply quotient_pos | apply quotient_neg];
          done || lia.
Qed.

Lemma eta_characterisation_witness :
  get_eta (feed (init 0 60) Examples.steady_calls) 106 110
    = Some (mkTimedelta (inject_Z (110 - 106)
              / get_blocks_per_hour (feed (init 0 60) Examples.steady_calls)))
  ∧ (0 < inject_Z (110 - 106)
         / get_blocks_per_hour (feed (init 0 60) Examples.steady_calls))%Q.
Proof.
  pose proof (eta_characterisation
                (feed (init 0 60) Examples.steady_calls) 106 110)
    as (_ & _ & H).
  split; [reflexivity|].
  apply (H (mkTimedelta _) eq_refl). reflexivity.
Defined.

(** C5, as the specification states it, fails: after a reorg, with blocks
    still to fetch, the estimate is a negative duration. *)
Lemma reorg_gives_negative_eta :
  ∃ d, get_eta (feed (init 0 60) Examples.reorg_calls) 90 100 = Some d ∧
       (td_hours d < 0)%Q.
Proof. eexists. split; reflexivity. Qed.

End TrackerFacts.

(* ===================================================================== *)
(** * Properties of the text primitives *)
(* ===================================================================== *)

Module PyFacts.

Import Py.
Local Open Scope string_scope.
Local Open Scope list_scope.
Local Arguments String.append !_ _ / : simpl nomatch.

Lemma append_assoc (a b c : string) : (a +:+ b) +:+ c = a +:+ b +:+ c.
Proof. induction a as [|x a IH]; simpl; [done|]. by rewrite IH. Qed.

Lemma append_nil_r (a : string) : a +:+ "" = a.
Proof. induction a as [|x a IH]; simpl; [done|]. by rewrite IH. Qed.

Lemma no_newline_app a b :
  no_newline (a +:+ b) = no_newline a && no_newline b.
Proof.
  induction a as [|x a IH]; simpl; [done|]. rewrite IH.
  by rewrite andb_assoc.
Qed.

(** Every text is a run of terminated lines followed by a rest without
    line feed. *)
Lemma text_ind (P : string → Prop) :
  (∀ b, no_newline b = true → P b) →
  (∀ b rest, no_newline b = true → P rest → P (b +:+ nl +:+ rest)) →
  ∀ text, P text.
Proof.
  intros Hlast Hline text.
  enough (∀ b, no_newline b = true → P (b +:+ text)) as H
    by apply (H "" eq_refl).
  induction text as [|c text IH]; intros b Hb.
  - rewrite append_nil_r. by apply Hlast.
  - destruct (Ascii.eqb_spec c newline) as [->|Hc].
    + apply (Hline b text Hb). apply (IH "" eq_refl).
    + replace (b +:+ String c text) with ((b +:+ String c "") +:+ text)
        by (by rewrite append_assoc).
      apply IH. rewrite no_newline_app, Hb. simpl.
      apply Ascii.eqb_neq in Hc. by rewrite Hc.
Qed.

Lemma readlines_rest b :
  no_newline b = true → readlines b = if String.eqb b "" then [] else [b].
Proof.
  induction b as [|c b IH]; simpl; [done|].
  destruct (Ascii.eqb c newline); simpl; [done|]. intros Hb.
  rewrite (IH Hb). by destruct b.
Qed.

Lemma readlines_line b rest :
  no_newline b = true →
  readlines (b +:+ nl +:+ rest) = (b +:+ nl) :: readlines rest.
Proof.
  induction b as [|c b IH]; simpl; [done|].
  destruct (Ascii.eqb c newline); simpl; [done|]. intros Hb.
  specialize (IH Hb). simpl in IH. by rewrite IH.
Qed.

Lemma writelines_app l1 l2 :
  writelines (l1 ++ l2) = writelines l1 +:+ writelines l2.
Proof.
  induction l1 as [|x l1 IH]; simpl; [done|].
  by rewrite IH, append_assoc.
Qed.

Lemma writelines_readlines text : writelines (readlines text) = text.
Proof.
  induction text as [b Hb|b rest Hb IH] using text_ind.
  - rewrite readlines_rest by done. destruct b; simpl; [done|].
    by rewrite append_nil_r.
  - rewrite readlines_line by done. simpl. by rewrite IH, append_assoc.
Qed.

(** Reading a text that continues after a terminated line. *)
Lemma readlines_app p rest :
  readlines ((p +:+ nl) +:+ rest) = readlines (p +:+ nl) ++ readlines rest.
Proof.
  induction p as [b Hb|b r Hb IH] using text_ind.
  - rewrite append_assoc, readlines_line by done.
    rewrite <- (append_nil_r (b +:+ nl)) at 2.
    rewrite append_assoc, readlines_line by done. done.
  - rewrite !append_assoc. rewrite !readlines_line by done.
    rewrite (readlines_line b (r +:+ nl)) by done.
    by rewrite <- (append_assoc r nl rest), IH.
Qed.

(** ** strip *)

Lemma rstrip_space s c :
  is_space c = true → rstrip (s +:+ String c "") = rstrip s.
Proof.
  intros Hc. induction s as [|a s IH]; simpl; [by rewrite Hc|].
  by rewrite IH.
Qed.

Lemma lstrip_app s t :
  lstrip (s +:+ t) = if String.eqb (lstrip s) "" then lstrip t
                     else lstrip s +:+ t.
Proof.
  induction s as [|a s IH]; simpl; [done|].
  destruct (is_space a); [done|]. done.
Qed.

Lemma strip_nl b : strip (b +:+ nl) = strip b.
Proof.
  unfold strip. rewrite lstrip_app.
  destruct (String.eqb_spec (lstrip b) "") as [->|Hne]; [done|].
  by apply rstrip_space.
Qed.

Lemma no_newline_lstrip s : no_newline s = true → no_newline (lstrip s) = true.
Proof.
  induction s as [|a s IH]; simpl; [done|].
  destruct (is_space a); simpl; [|done].
  intros [_ H]%andb_prop. by apply IH.
Qed.

Lemma no_newline_rstrip s : no_newline s = true → no_newline (rstrip s) = true.
Proof.
  induction s as [|a s IH]; simpl; [done|].
  intros [Ha H]%andb_prop. specialize (IH H).
  destruct (rstrip s); simpl in *.
  - destruct (is_space a); simpl; [done|]. by rewrite Ha.
  - by rewrite Ha, IH.
Qed.

Lemma no_newline_strip s : no_newline s = true → no_newline (strip s) = true.
Proof. intros. by apply no_newline_rstrip, no_newline_lstrip. Qed.

Lemma no_newline_split_once sep s k v :
  no_newline s = true → split_once sep s = Some (k, v) →
  no_newline k = true ∧ no_newline v = true.
Proof.
  revert k v. induction s as [|a s IH]; intros k v; simpl; [done|].
  intros [Ha H]%andb_prop.
  destruct (Ascii.eqb a sep).
  - by intros [= <- <-].
  - destruct (split_once sep s) as [[k' v']|]; [|done].
    intros [= <- <-]. destruct (IH k' v' H eq_refl). simpl. by rewrite Ha.
Qed.

Lemma content_line b : no_newline b = true → content (b +:+ nl) = b.
Proof.
  induction b as [|c b IH]; simpl; [done|].
  intros [Hc H]%andb_prop. rewrite (IH H).
  destruct (Ascii.eqb c newline); [done|]. simpl. done.
Qed.

Lemma content_rest b : no_newline b = true → content b = b.
Proof.
  induction b as [|c b IH]; simpl; [done|].
  intros [Hc H]%andb_prop. rewrite (IH H).
  destruct (Ascii.eqb c newline); [done|]. simpl. done.
Qed.

End PyFacts.

(* ===================================================================== *)
(** * Properties of BitcoinConfigManager *)
(* ===================================================================== *)

Module ConfigFacts.

Import Py PyFacts Config.
Local Open Scope string_scope.
Local Open Scope list_scope.
Local Arguments String.append !_ _ / : simpl nomatch.

Lemma dict_get_set {V} k k' (v : V) d :
  dict_get k (dict_set k' v d) =
    if String.eqb k k' then Some v else dict_get k d.
Proof.
  induction d as [|[k0 v0] d IH]; simpl.
  - by destruct (String.eqb k k').
  - destruct (String.eqb_spec k' k0) as [->|Hne]; simpl.
    + by destruct (String.eqb k k0).
    + rewrite IH. destruct (String.eqb_spec k k0) as [->|]; [|done].
      destruct (String.eqb_spec k0 k'); [congruence|done].
Qed.

Lemma read_line_parse d line :
  read_line d line =
    match parse_line line with
    | Some (k, v) => dict_set k v d
    | None => d
    end.
Proof.
  unfold read_line, parse_line.
  destruct (_ || _); [done|]. by destruct (split_once _ _) as [[??]|].
Qed.

Lemma line_key_parse line : line_key line = fst <$> parse_line line.
Proof.
  unfold line_key, parse_line.
  destruct (_ || _); [done|]. by destruct (split_once _ _) as [[??]|].
Qed.

Lemma parse_line_nl b : parse_line (b +:+ nl) = parse_line b.
Proof. unfold parse_line. by rewrite strip_nl. Qed.

Lemma line_key_nl b : line_key (b +:+ nl) = line_key b.
Proof. by rewrite !line_key_parse, parse_line_nl. Qed.

(** ** [read_config] as a map *)

Lemma dict_get_read_lines k d lines :
  dict_get k (foldl read_line d lines) = foldl (bind k) (dict_get k d) lines.
Proof.
  revert d. induction lines as [|line lines IH]; intros d; simpl; [done|].
  rewrite IH. f_equal. rewrite read_line_parse. unfold bind.
  destruct (parse_line line) as [[k' v]|]; [|done]. apply dict_get_set.
Qed.

Lemma bind_other k acc line :
  line_key line ≠ Some k → bind k acc line = acc.
Proof.
  rewrite line_key_parse. unfold bind.
  destruct (parse_line line) as [[k' v]|]; simpl; [|done].
  destruct (String.eqb_spec k k') as [->|]; [congruence|done].
Qed.

Lemma bind_others k acc lines :
  Forall (λ line, line_key line ≠ Some k) lines →
  foldl (bind k) acc lines = acc.
Proof.
  induction 1 as [|line lines H _ IH]; simpl; [done|].
  by rewrite bind_other.
Qed.

Lemma bind_last k v lines i line :
  lines !! i = Some line →
  parse_line line = Some (k, v) →
  (∀ j later, (i < j)%nat → lines !! j = Some later →
              line_key later ≠ Some k) →
  ∀ acc, foldl (bind k) acc lines = Some v.
Proof.
  intros Hi Hp Hlater acc.
  rewrite <- (take_drop_middle lines i line Hi), foldl_app. simpl.
  rewrite bind_others.
  - unfold bind. by rewrite Hp, String.eqb_refl.
  - apply Forall_forall. intros later [j Hj]%list_elem_of_lookup.
    rewrite lookup_drop in Hj. apply (Hlater (S i + j)%nat later); [lia|done].
Qed.

(** ** The two loops of [write_config] *)

Lemma foldl_cons {A B} (f : A → B → A) a x l :
  foldl f a (x :: l) = foldl f (f a x) l.
Proof. reflexivity. Qed.

Lemma rewrite_line_spec settings new_lines keys line :
  rewrite_line settings (new_lines, keys) line =
    (new_lines ++ [rewritten settings line], hit settings line ∪ keys).
Proof.
  unfold rewrite_line, rewritten, hit, line_key, dict_mem.
  destruct (_ || _); [by rewrite union_empty_l_L|].
  destruct (split_once _ _) as [[k v]|]; [|by rewrite union_empty_l_L].
  destruct (dict_get (strip k) settings); [done|by rewrite union_empty_l_L].
Qed.

Lemma rewrite_loop settings lines new_lines keys :
  foldl (rewrite_line settings) (new_lines, keys) lines =
    (new_lines ++ (rewritten settings <$> lines),
     ⋃ (hit settings <$> lines) ∪ keys).
Proof.
  revert new_lines keys.
  induction lines as [|line lines IH]; intros new_lines keys.
  - simpl. by rewrite app_nil_r, union_empty_l_L.
  - rewrite foldl_cons, rewrite_line_spec, IH, <- app_assoc. simpl.
    f_equal. rewrite (assoc_L (∪)). f_equal. apply (comm_L (∪)).
Qed.

Lemma append_loop keys settings new_lines :
  foldl (append_setting keys) new_lines settings =
    new_lines ++ added keys settings.
Proof.
  revert new_lines.
  induction settings as [|[k v] settings IH]; intros new_lines.
  - simpl. by rewrite app_nil_r.
  - rewrite foldl_cons, IH. unfold added. simpl.
    destruct (decide (k ∈ keys)); simpl; [done|].
    by rewrite <- app_assoc.
Qed.

Lemma rewrite_lines_spec settings lines :
  rewrite_lines settings lines =
    (rewritten settings <$> lines)
    ++ added (⋃ (hit settings <$> lines)) settings.
Proof.
  unfold rewrite_lines. rewrite rewrite_loop, append_loop. simpl.
  by rewrite union_empty_r_L.
Qed.

Lemma rewritten_other settings line :
  (∀ k, line_key line = Some k → dict_get k settings = None) →
  rewritten settings line = line.
Proof.
  intros H. unfold rewritten. destruct (line_key line) as [k|]; [|done].
  by rewrite (H k eq_refl).
Qed.

Lemma hit_other settings line :
  (∀ k, line_key line = Some k → dict_get k settings = None) →
  hit settings line = ∅.
Proof.
  intros H. unfold hit, dict_mem. destruct (line_key line) as [k|]; [|done].
  by rewrite (H k eq_refl).
Qed.

Lemma line_key_no_newline b k :
  no_newline b = true → line_key b = Some k → no_newline k = true.
Proof.
  intros Hb. unfold line_key. destruct (_ || _); [done|].
  destruct (split_once _ _) as [[k' v]|] eqn:E; [|done]. intros [= <-].
  apply no_newline_strip.
  by apply (no_newline_split_once _ _ _ _ (no_newline_strip _ Hb) E).
Qed.

Lemma dict_get_elem {V} k (v : V) d : dict_get k d = Some v → (k, v) ∈ d.
Proof.
  induction d as [|[k' v'] d IH]; simpl; [done|].
  destruct (String.eqb_spec k k') as [->|].
  - intros [= ->]. left.
  - intros H. right. by apply IH.
Qed.

(** A terminated line stays one terminated line. *)
Lemma rewritten_line settings b :
  values_one_line settings → no_newline b = true →
  ∃ b', no_newline b' = true ∧ rewritten settings (b +:+ nl) = b' +:+ nl.
Proof.
  intros Hv Hb. unfold rewritten. rewrite line_key_nl.
  destruct (line_key b) as [k|] eqn:Hk; [|by exists b].
  destruct (dict_get k settings) as [v|] eqn:Hg; [|by exists b].
  exists (k +:+ "=" +:+ v). split.
  - rewrite !no_newline_app. rewrite (line_key_no_newline b k Hb Hk). simpl.
    apply dict_get_elem in Hg. unfold values_one_line in Hv.
    rewrite Forall_forall in Hv. apply (Hv _ Hg).
  - by rewrite !append_assoc.
Qed.

(** Reading back what [write_config] wrote: the lines that were copied
    are found where they were. *)
Lemma frame_text settings tail text :
  values_one_line settings →
  (tail = "" ∨ ∃ t, tail = nl +:+ t) →
  ∀ n line, readlines text !! n = Some line →
    rewritten settings line = line →
    content <$>
      readlines (writelines (rewritten settings <$> readlines text) +:+ tail)
        !! n
    = Some (content line).
Proof.
  intros Hv Htail. induction text as [b Hb|b rest Hb IH] using text_ind.
  - rewrite readlines_rest by done.
    destruct (String.eqb_spec b "") as [->|Hne]; [done|].
    intros [|n] line; [|done]. intros [= <-] Hsame. simpl.
    rewrite Hsame, append_nil_r. destruct Htail as [->|[t ->]].
    + rewrite append_nil_r, readlines_rest by done.
      destruct (String.eqb_spec b ""); done.
    + rewrite readlines_line by done. simpl.
      by rewrite content_line, content_rest.
  - rewrite readlines_line by done. intros n line Hn Hsame.
    destruct (rewritten_line settings b Hv Hb) as (b' & Hb' & Hr).
    rewrite fmap_cons. simpl writelines. rewrite Hr, !append_assoc.
    rewrite readlines_line by done.
    destruct n as [|n]; simpl in *.
    + injection Hn as <-. rewrite Hsame in Hr. by rewrite Hr.
    + by apply IH.
Qed.

Lemma added_tail keys settings :
  writelines (added keys settings) = "" ∨
  ∃ t, writelines (added keys settings) = nl +:+ t.
Proof.
  induction settings as [|[k v] settings IH]; simpl; [by left|].
  destruct (decide (k ∈ keys)); simpl; [done|]. right. eauto.
Qed.

Lemma conf_backup e fs : conf (backup_config e fs) = conf fs.
Proof.
  unfold backup_config. destruct (conf fs) eqn:E; [|done].
  by destruct (copy_fails e).
Qed.

(** The file after [write_config]. *)
Lemma write_config_conf settings e fs text :
  conf fs = Some text →
  write_config settings e fs =
    match read_error e with
    | Some err =>
        ((false, "Error writing config: " +:+ err), backup_config e fs)
    | None =>
        ((true, "Configuration saved successfully"),
         {| conf := Some (writelines (rewrite_lines settings (readlines text)));
            backups := backups (backup_config e fs);
            writes := S (writes (backup_config e fs)) |})
    end.
Proof.
  intros Hc. unfold write_config. rewrite Hc, conf_backup, Hc.
  by destruct (read_error e).
Qed.

Lemma defaults_one_line : values_one_line get_default_settings.
Proof. repeat constructor. Qed.

(** C9.  Whatever the answers and the environment of a reset, the file is
    still there afterwards, and every line of the old file that is a
    comment, blank, without ['='], or a [key=value] line of a key other
    than the five default keys, is found at the same line number with the
    same content. *)
Theorem reset_to_defaults_frame i p fs text :
  conf fs = Some text →
  ∃ text',
    conf (Settings.fs (Settings.reset_to_defaults i p fs)) = Some text' ∧
    ∀ n line,
      readlines text !! n = Some line →
      (∀ k, line_key line = Some k →
            dict_get k get_default_settings = None) →
      content <$> (readlines text' !! n) = Some (content line).
Proof.
  intros Hc. unfold Settings.reset_to_defaults.
  destruct (Settings.confirmed i); simpl.
  2:{ exists text. split; [done|]. by intros n line ->. }
  rewrite (write_config_conf _ _ _ _ Hc).
  destruct (read_error (Settings.env i)); simpl.
  { exists text. rewrite conf_backup. split; [done|]. by intros n line ->. }
  eexists. split; [done|]. intros n line Hn Hk.
  rewrite rewrite_lines_spec, writelines_app.
  apply frame_text; [apply defaults_one_line|apply added_tail|done|].
  by apply rewritten_other.
Qed.

(** C10.  When a line of the file binds [k] to [v] and no later line binds
    [k], [read_config] maps [k] to [v]: of several lines for one key, the
    last one wins. *)
Theorem read_config_last_wins fs text i line k v :
  conf fs = Some text →
  readlines text !! i = Some line →
  parse_line line = Some (k, v) →
  (∀ j later, (i < j)%nat → readlines text !! j = Some later →
              line_key later ≠ Some k) →
  dict_get k (read_config fs) = Some v.
Proof.
  intros Hc Hi Hp Hlater. unfold read_config, read_lines. rewrite Hc.
  rewrite dict_get_read_lines. by apply (bind_last k v _ i line).
Qed.

(** ** Reading a text piece by piece *)

Lemma scan_rest k acc b : no_newline b = true → scan k acc b = bind k acc b.
Proof.
  intros Hb. unfold scan. rewrite readlines_rest by done.
  by destruct (String.eqb_spec b "") as [->|].
Qed.

Lemma scan_join k acc a b :
  scan k acc (a +:+ nl +:+ b) = scan k (scan k acc a) b.
Proof.
  revert acc. induction a as [a Ha|a r Ha IH] using text_ind; intros acc.
  - rewrite (scan_rest k acc a Ha). unfold scan.
    rewrite readlines_line by done. simpl. f_equal.
    unfold bind. by rewrite parse_line_nl.
  - rewrite !append_assoc. unfold scan in *.
    rewrite (readlines_line a (r +:+ nl +:+ b)), (readlines_line a r) by done.
    rewrite !foldl_cons. apply IH.
Qed.

Lemma scan_others k acc text :
  (∀ line, line ∈ readlines text → line_key line ≠ Some k) →
  scan k acc text = acc.
Proof. intros H. apply bind_others. by apply Forall_forall. Qed.

Lemma dict_get_read_config k fs text :
  conf fs = Some text → dict_get k (read_config fs) = scan k None text.
Proof.
  intros Hc. unfold read_config, read_lines, scan. rewrite Hc.
  apply dict_get_read_lines.
Qed.

Lemma scan_line k acc a : scan k acc (a +:+ nl) = scan k acc a.
Proof. apply (scan_join k acc a ""). Qed.

Lemma scan_prefix k acc pre rest :
  (pre = "" ∨ ∃ p, pre = p +:+ nl) →
  scan k acc (pre +:+ rest) = scan k (scan k acc pre) rest.
Proof.
  intros [->|[p ->]]; [done|].
  by rewrite append_assoc, scan_join, scan_line.
Qed.

Lemma readlines_prefix pre rest :
  (pre = "" ∨ ∃ p, pre = p +:+ nl) →
  readlines (pre +:+ rest) = readlines pre ++ readlines rest.
Proof. intros [->|[p ->]]; [done|]. apply readlines_app. Qed.

Lemma staged_other k :
  k ≠ "prune" → k ≠ "maxconnections" → dict_get k staged = None.
Proof.
  intros H1 H2. unfold staged. simpl.
  destruct (String.eqb_spec k "prune"); [done|].
  by destruct (String.eqb_spec k "maxconnections").
Qed.

Lemma writelines_cons x l : writelines (x :: l) = x +:+ writelines l.
Proof. reflexivity. Qed.

Lemma hit_old :
  hit staged ("maxconnections=125" +:+ nl) = {[ "maxconnections" ]}.
Proof. reflexivity. Qed.

Lemma rewritten_old :
  rewritten staged ("maxconnections=125" +:+ nl) = "maxconnections=50" +:+ nl.
Proof. reflexivity. Qed.

Lemma added_staged :
  added {[ "maxconnections" ]} staged = [added_line "prune" "0"].
Proof.
  unfold added, staged. simpl.
  rewrite decide_False by (by rewrite elem_of_singleton).
  by rewrite decide_True by (by rewrite elem_of_singleton).
Qed.

Section RoundTrip.
Variables pre post : string.
Hypothesis pre_lines : pre = "" ∨ ∃ p, pre = p +:+ nl.
Hypothesis unrelated :
  ∀ line, line ∈ readlines pre ++ readlines post →
          line_key line ≠ Some "prune" ∧
          line_key line ≠ Some "maxconnections".

Let before := pre +:+ "maxconnections=125" +:+ nl +:+ post.
Let after :=
  pre +:+ "maxconnections=50" +:+ nl +:+ post
      +:+ nl +:+ "# Added by NodePulse" +:+ nl +:+ "prune=0" +:+ nl.

Lemma unrelated_line line :
  line ∈ readlines pre ++ readlines post →
  ∀ k, line_key line = Some k → dict_get k staged = None.
Proof.
  intros Hin k Hk. destruct (unrelated line Hin) as [H1 H2].
  apply staged_other; congruence.
Qed.

Lemma before_lines :
  readlines before =
    readlines pre ++ ("maxconnections=125" +:+ nl) :: readlines post.
Proof.
  unfold before. rewrite readlines_prefix by done.
  by rewrite readlines_line.
Qed.

Lemma rewritten_unrelated lines :
  (∀ line, line ∈ lines → line ∈ readlines pre ++ readlines post) →
  rewritten staged <$> lines = lines ∧ ⋃ (hit staged <$> lines) = ∅.
Proof.
  induction lines as [|l lines IH]; intros Hin; [done|].
  destruct IH as [IH1 IH2]; [intros; apply Hin; by right|].
  rewrite !fmap_cons, IH1. simpl. rewrite IH2.
  rewrite rewritten_other, hit_other
    by (apply unrelated_line, Hin; left).
  split; [done|]. by rewrite union_empty_l_L.
Qed.

Lemma staged_rewrite :
  writelines (rewrite_lines staged (readlines before)) = after.
Proof.
  rewrite rewrite_lines_spec, before_lines.
  rewrite !fmap_app, !fmap_cons, union_list_app_L, union_list_cons.
  destruct (rewritten_unrelated (readlines pre)) as [-> ->];
    [intros; apply elem_of_app; by left|].
  destruct (rewritten_unrelated (readlines post)) as [-> ->];
    [intros; apply elem_of_app; by right|].
  rewrite union_empty_l_L, union_empty_r_L, hit_old, rewritten_old.
  rewrite added_staged, <- app_assoc, writelines_app.
  rewrite <- app_comm_cons, writelines_cons, writelines_app.
  rewrite !writelines_readlines, writelines_cons.
  change (writelines []) with "". unfold after, added_line.
  by rewrite !append_assoc, append_nil_r.
Qed.

Lemma scan_before k :
  scan k None before =
    scan k (bind k (scan k None pre) "maxconnections=125") post.
Proof.
  unfold before. rewrite scan_prefix by done.
  by rewrite scan_join, (scan_rest k _ "maxconnections=125").
Qed.

Lemma scan_after k :
  scan k None after =
    bind k (bind k (scan k (bind k (scan k None pre) "maxconnections=50")
                      post) "# Added by NodePulse") "prune=0".
Proof.
  unfold after. rewrite scan_prefix by done.
  rewrite !scan_join, scan_line.
  by rewrite (scan_rest k _ "maxconnections=50"),
    (scan_rest k _ "# Added by NodePulse"), (scan_rest k _ "prune=0").
Qed.

Lemma scan_post k acc :
  k = "prune" ∨ k = "maxconnections" → scan k acc post = acc.
Proof.
  intros Hk. apply scan_others. intros line Hin.
  destruct (unrelated line) as [H1 H2]; [apply elem_of_app; by right|].
  by destruct Hk as [->| ->].
Qed.

Lemma read_back k :
  scan k None after =
    if String.eqb k "maxconnections" then Some "50"
    else if String.eqb k "prune" then Some "0"
    else scan k None before.
Proof.
  rewrite scan_after, scan_before.
  destruct (String.eqb_spec k "maxconnections") as [->|Hm].
  - by rewrite scan_post by by right.
  - destruct (String.eqb_spec k "prune") as [->|Hp]; [done|].
    rewrite !bind_other; [done|..]; intros H; vm_compute in H; congruence.
Qed.

End RoundTrip.

(** C7.  The file is [pre], the line [maxconnections=125], then [post],
    where no line of [pre] and [post] has the key [prune] or
    [maxconnections] (comments, blank lines, other keys).  Writing
    [{prune: "0", maxconnections: "50"}] succeeds and leaves [pre] and
    [post] as they were, [maxconnections=50] in the place of the old line,
    and the block for [prune=0] appended; reading the file back gives
    ["50"] for [maxconnections], ["0"] for [prune] and, for every other
    key, what the old file gave. *)
Theorem write_config_round_trip pre post e fs :
  (pre = "" ∨ ∃ p, pre = p +:+ nl) →
  (∀ line, line ∈ readlines pre ++ readlines post →
         line_key line ≠ Some "prune" ∧
           line_key line ≠ Some "maxconnections") →
  conf fs = Some (pre +:+ "maxconnections=125" +:+ nl +:+ post) →
  read_error e = None →
  ∃ fs',
    write_config staged e fs =
      ((true, "Configuration saved successfully"), fs') ∧
    conf fs' =
      Some (pre +:+ "maxconnections=50" +:+ nl +:+ post
                +:+ nl +:+ "# Added by NodePulse" +:+ nl
                +:+ "prune=0" +:+ nl) ∧
    ∀ k, dict_get k (read_config fs') =
           if String.eqb k "maxconnections" then Some "50"
           else if String.eqb k "prune" then Some "0"
           else dict_get k (read_config fs).
Proof.
  intros Hpre Hun Hc He.
  rewrite (write_config_conf _ _ _ _ Hc), He.
  eexists. split; [done|]. cbn [conf].
  rewrite staged_rewrite by done. split; [done|]. intros k.
  rewrite (dict_get_read_config k fs _ Hc).
  erewrite dict_get_read_config by done.
  by apply read_back.
Qed.

(** ** The theorems at concrete files *)

Lemma reset_to_defaults_frame_witness :
  ∃ text',
    conf (Settings.fs (Settings.reset_to_defaults Examples.yes
                         Examples.bad_panel Examples.conf_fs))
      = Some text' ∧
    content <$> (readlines text' !! 3%nat) = Some "txindex=1".
Proof.
  destruct (reset_to_defaults_frame Examples.yes Examples.bad_panel
              Examples.conf_fs _ eq_refl) as (text' & Hconf & Hframe).
  exists text'. split; [exact Hconf|].
  apply (Hframe 3%nat ("txindex=1" +:+ nl)); [reflexivity|].
  intros k Hk. vm_compute in Hk. injection Hk as <-. reflexivity.
Defined.

Lemma read_config_last_wins_witness :
  dict_get "dbcache" (read_config Examples.twice_fs) = Some "900".
Proof.
  apply (read_config_last_wins Examples.twice_fs
           ("dbcache=450" +:+ nl +:+ "# tuned" +:+ nl +:+ "dbcache=900" +:+ nl)
           2 ("dbcache=900" +:+ nl) "dbcache" "900");
    [reflexivity | reflexivity | reflexivity |].
  intros j later Hj Hlater.
  destruct j as [|[|[|j]]]; [lia | lia | lia |].
  vm_compute in Hlater. discriminate.
Defined.

Lemma write_config_round_trip_witness :
  ∃ fs',
    write_config staged Examples.quiet_env Examples.conf_fs =
      ((true, "Configuration saved successfully"), fs') ∧
    conf fs' =
      Some (Examples.conf_head +:+ "maxconnections=50" +:+ nl
              +:+ Examples.conf_tail
              +:+ nl +:+ "# Added by NodePulse" +:+ nl
              +:+ "prune=0" +:+ nl) ∧
    ∀ k, dict_get k (read_config fs') =
           if String.eqb k "maxconnections" then Some "50"
           else if String.eqb k "prune" then Some "0"
           else dict_get k (read_config Examples.conf_fs).
Proof.
  apply (write_config_round_trip Examples.conf_head Examples.conf_tail
           Examples.quiet_env Examples.conf_fs).
  - right. by exists "# Bitcoin Core settings".
  - intros line Hin. apply list_elem_of_In in Hin. vm_compute in Hin.
    destruct Hin as [<-|[<-|[<-|[]]]]; split; intros H; vm_compute in H;
      discriminate.
  - reflexivity.
  - reflexivity.
Defined.

End ConfigFacts.

(* ===================================================================== *)
(** * Properties of validation and of the pending change set *)
(* ===================================================================== *)

Module SettingsFacts.

Import Py Config.
Local Open Scope string_scope.
Local Open Scope list_scope.

(** ** Decimal numerals *)

Lemma all_digits_numeral d : all_digits (NilEmpty.string_of_uint d) = true.
Proof. induction d; simpl; done. Qed.

Lemma str_nonneg n :
  str (Z.of_N n) = NilEmpty.string_of_uint (N.to_uint n).
Proof.
  destruct n as [|p]; [done|]. unfold str. simpl.
  pose proof (Unsigned.to_uint_nonnil p). by destruct (Pos.to_uint p).
Qed.

Lemma isdigit_str n : isdigit (str (Z.of_N n)) = true.
Proof.
  rewrite str_nonneg. unfold isdigit.
  pose proof (all_digits_numeral (N.to_uint n)) as H.
  destruct (NilEmpty.string_of_uint (N.to_uint n)) eqn:E; [|done].
  destruct n as [|p]; [done|]. simpl in E.
  pose proof (Unsigned.to_uint_nonnil p). by destruct (Pos.to_uint p).
Qed.

Lemma int_str n : int (str (Z.of_N n)) = Z.of_N n.
Proof.
  rewrite str_nonneg. unfold int.
  by rewrite NilEmpty.usu, DecimalN.Unsigned.of_to.
Qed.

Lemma str_negative p :
  isdigit (str (Z.neg p)) = false ∧ String.eqb (str (Z.neg p)) "0" = false.
Proof. done. Qed.

(** A rule [isdigit v and lo <= int(v) <= hi] on the numeral of [n]. *)
Lemma range_rule lo hi n :
  0 <= lo →
  isdigit (str n) && ((lo <=? int (str n)) && (int (str n) <=? hi))%Z = true
  ↔ lo <= n <= hi.
Proof.
  intros Hlo. destruct n as [|p|p].
  - change 0 with (Z.of_N 0). rewrite isdigit_str, int_str. simpl. lia.
  - change (Z.pos p) with (Z.of_N (N.pos p)).
    rewrite isdigit_str, int_str. simpl. lia.
  - destruct (str_negative p) as [-> _]. simpl. split; [done|lia].
Qed.

Lemma prune_rule n :
  String.eqb (str n) "0" || isdigit (str n) && (550 <=? int (str n))%Z = true
  ↔ n = 0 ∨ 550 <= n.
Proof.
  destruct n as [|p|p].
  - split; [by left|done].
  - pose proof (isdigit_str (N.pos p)) as Hd.
    pose proof (int_str (N.pos p)) as Hi.
    change (Z.of_N (N.pos p)) with (Z.pos p) in *. rewrite Hd, Hi.
    destruct (String.eqb_spec (str (Z.pos p)) "0") as [E|_].
    + rewrite E in Hi. done.
    + simpl. rewrite Z.leb_le. lia.
  - destruct (str_negative p) as [-> ->]. simpl. split; [done|lia].
Qed.

Lemma validate_setting_valid key value :
  (validate_setting key value).1 =
    match validations key with
    | Some rule => rule value
    | None => true
    end.
Proof.
  unfold validate_setting. destruct (validations key) as [rule|]; [|done].
  by destruct (rule value).
Qed.

Lemma validations_unknown key :
  key ≠ "prune" → key ≠ "maxconnections" → key ≠ "dbcache" →
  key ≠ "rpcport" → validations key = None.
Proof.
  intros H1 H2 H3 H4. unfold validations.
  destruct (String.eqb_spec key "prune"); [done|].
  destruct (String.eqb_spec key "maxconnections"); [done|].
  destruct (String.eqb_spec key "dbcache"); [done|].
  by destruct (String.eqb_spec key "rpcport").
Qed.

(** ** The batch *)

Lemma first_invalid_found changes k v :
  (k, v) ∈ changes → (validate_setting k v).1 = false →
  ∃ msg, Settings.first_invalid changes = Some msg.
Proof.
  induction changes as [|[k' v'] changes IH]; [by intros ?%elem_of_nil|].
  intros Hin Hbad. simpl.
  destruct (validate_setting k' v') as [valid msg] eqn:E.
  destruct valid; [|eauto].
  apply elem_of_cons in Hin as [[= <- <-]|Hin]; [|by apply IH].
  rewrite E in Hbad. done.
Qed.

Lemma apply_changes_invalid i p fs k v :
  (k, v) ∈ Settings.pending_changes p →
  (validate_setting k v).1 = false →
  Settings.fs (Settings.apply_changes i p fs) = fs.
Proof.
  intros Hin Hbad. unfold Settings.apply_changes.
  destruct (first_invalid_found _ k v Hin Hbad) as [msg Hmsg].
  destruct (Settings.pending_changes p) eqn:E; [done|].
  destruct (negb (Settings.confirmed i)); [done|]. by rewrite Hmsg.
Qed.

(** C8.  On the decimal numeral of an integer [n], [validate_setting]
    accepts [prune] exactly for [n = 0] or [n >= 550], [maxconnections]
    for [8 <= n <= 125], [dbcache] for [4 <= n <= 16384] and [rpcport] for
    [1024 <= n <= 65535]; every other key is accepted with any value;
    ["200"] is refused and ["50"] accepted for [maxconnections]; and
    [apply_changes] leaves the directory of the configuration file as it
    was (no write, no backup) when some pending entry is invalid. *)
Theorem validate_setting_rules :
  (∀ n, (validate_setting "prune" (str n)).1 = true ↔ n = 0 ∨ 550 <= n) ∧
  (∀ n, (validate_setting "maxconnections" (str n)).1 = true
        ↔ 8 <= n <= 125) ∧
  (∀ n, (validate_setting "dbcache" (str n)).1 = true ↔ 4 <= n <= 16384) ∧
  (∀ n, (validate_setting "rpcport" (str n)).1 = true
        ↔ 1024 <= n <= 65535) ∧
  (∀ key value,
     key ≠ "prune" → key ≠ "maxconnections" → key ≠ "dbcache" →
     key ≠ "rpcport" → validate_setting key value = (true, "Valid")) ∧
  validate_setting "maxconnections" "200"
    = (false, "Invalid value for maxconnections") ∧
  validate_setting "maxconnections" "50" = (true, "Valid") ∧
  (∀ i p fs k v,
     (k, v) ∈ Settings.pending_changes p →
     (validate_setting k v).1 = false →
     Settings.fs (Settings.apply_changes i p fs) = fs).
Proof.
  split_and!.
  - intros n. rewrite validate_setting_valid. apply prune_rule.
  - intros n. rewrite validate_setting_valid. by apply (range_rule 8 125).
  - intros n. rewrite validate_setting_valid. by apply (range_rule 4 16384).
  - intros n. rewrite validate_setting_valid.
    by apply (range_rule 1024 65535).
  - intros. unfold validate_setting. by rewrite validations_unknown.
  - reflexivity.
  - reflexivity.
  - apply apply_changes_invalid.
Qed.

Lemma validate_setting_rules_witness :
  Settings.fs (Settings.apply_changes Examples.yes Examples.bad_panel
                 Examples.conf_fs)
    = Examples.conf_fs.
Proof.
  destruct validate_setting_rules as (_ & _ & _ & _ & _ & _ & _ & Hbatch).
  apply (Hbatch Examples.yes Examples.bad_panel Examples.conf_fs
           "maxconnections" "200").
  - apply list_elem_of_In. simpl. auto.
  - reflexivity.
Defined.

End SettingsFacts.

(* ===================================================================== *)
(** * Properties of the refresh cycle *)
(* ===================================================================== *)

Module AppFacts.

Import Rpc App.
Local Open Scope string_scope.
Local Open Scope list_scope.

Lemma run_command_fails {A} (o : outcome A) :
  fails o = true → run_command o = None.
Proof.
  destruct o as [rc [v|]| |]; simpl; try done.
  - by destruct (rc =? 0)%Z.
  - by destruct (rc =? 0)%Z.
Qed.

(** ** Shape of one cycle *)

Lemma peer_step_counted c snap r ni :
  network_info snap = Some ni → network_info_truthy ni = true →
  let n := default 0%Z (ni_connections ni) in
  (peer_step c snap r).2 = r.2 ++ peer_alerts c (last_peer_count r.1) n ∧
  last_peer_count (peer_step c snap r).1 = Some n ∧
  node_was_responsive (peer_step c snap r).1 = node_was_responsive r.1.
Proof.
  intros Hni Ht n. unfold peer_step. rewrite Hni, Ht. fold n.
  destruct r as [s out]. simpl.
  destruct (last_peer_count s) as [p|]; simpl.
  - destruct ((n <? 3)%Z && (3 <=? p)%Z); simpl; [done|].
    destruct ((3 <=? n)%Z && (p <? 3)%Z); simpl; [done|].
    by rewrite app_nil_r.
  - by rewrite app_nil_r.
Qed.

Lemma peer_step_skipped c snap r :
  match network_info snap with
  | Some ni => network_info_truthy ni = false
  | None => True
  end →
  peer_step c snap r = r.
Proof.
  unfold peer_step. destruct (network_info snap) as [ni|]; [|done].
  by intros ->.
Qed.

Lemma peer_step_full c r :
  (peer_step c (gather c) r).2 = r.2 ++ peer_part c r.1 ∧
  node_was_responsive (peer_step c (gather c) r).1 = node_was_responsive r.1 ∧
  last_peer_count (peer_step c (gather c) r).1 = peer_count_after c r.1.
Proof.
  unfold peer_part, peer_count_after.
  destruct (network_info (gather c)) as [ni|] eqn:Hni.
  - destruct (network_info_truthy ni) eqn:Ht.
    + by destruct (peer_step_counted c (gather c) r ni Hni Ht)
        as (-> & -> & ->).
    + rewrite peer_step_skipped by (by rewrite Hni). by rewrite app_nil_r.
  - rewrite peer_step_skipped by (by rewrite Hni). by rewrite app_nil_r.
Qed.

(** The cycle of a chain-state reply, alert by alert. *)
Lemma refresh_ok_full c s bi :
  blockchain_info (gather c) = Some bi →
  (refresh_data c s).2 =
    restored_alerts c s ++ sync_alerts c s bi ++ peer_part c s ∧
  node_was_responsive (refresh_data c s).1 = true ∧
  last_peer_count (refresh_data c s).1 = peer_count_after c s.
Proof.
  intros Hbi. unfold refresh_data. rewrite Hbi.
  set (r1 := if String.eqb (active_tab c) "home" then _ else _).
  assert (∃ d, r1 = (mkState (tracker s) (last_peer_count s)
                       (node_was_responsive s) (alerts_panel s) d, []))
    as [d ->].
  { unfold r1. destruct (String.eqb _ _); destruct s; simpl; eauto. }
  unfold restored_alerts, sync_alerts. simpl.
  unfold Tracker.update.
  destruct (node_was_responsive s); simpl;
    destruct (Tracker.truthy _); simpl;
    match goal with |- context [peer_step c (gather c) ?r] =>
      destruct (peer_step_full c r) as (-> & -> & ->) end; done.
Qed.

Lemma refresh_failed_full c s :
  blockchain_info (gather c) = None →
  (refresh_data c s).2 =
    (if node_was_responsive s
     then [mkAlert (clock c) "Node not responding!" "error"] else []) ∧
  node_was_responsive (refresh_data c s).1 = false ∧
  tracker (refresh_data c s).1 = tracker s ∧
  last_peer_count (refresh_data c s).1 = last_peer_count s ∧
  dashboard_panel (refresh_data c s).1 =
    if String.eqb (active_tab c) "home"
    then mkDashboard (is_running c) None (network_info (gather c))
           (uptime (gather c))
    else dashboard_panel s.
Proof.
  intros Hbi. unfold refresh_data. rewrite Hbi.
  destruct (String.eqb (active_tab c) "home"); simpl;
    destruct (node_was_responsive s) eqn:E; simpl; simpl in Hbi;
    rewrite ?Hbi; done.
Qed.

Lemma chain_ok_Some c :
  chain_ok c = true ↔ ∃ bi, blockchain_info (gather c) = Some bi.
Proof.
  unfold chain_ok. destruct (blockchain_info (gather c)) as [bi|].
  - split; [eauto|done].
  - split; [done|]. by intros [bi ?].
Qed.

Lemma chain_ok_None c :
  chain_ok c = false ↔ blockchain_info (gather c) = None.
Proof. unfold chain_ok. by destruct (blockchain_info (gather c)). Qed.

(** After a cycle the latch holds whether the chain-state query replied. *)
Lemma refresh_responsive c s :
  node_was_responsive (refresh_data c s).1 = chain_ok c.
Proof.
  destruct (chain_ok c) eqn:Hok.
  - apply chain_ok_Some in Hok as [bi Hbi].
    by destruct (refresh_ok_full c s bi Hbi) as (_ & ? & _).
  - apply chain_ok_None in Hok.
    by destruct (refresh_failed_full c s Hok) as (_ & ? & _).
Qed.

Lemma count_app k l1 l2 : count k (l1 ++ l2) = (count k l1 + count k l2)%nat.
Proof. unfold count. by rewrite filter_app, length_app. Qed.

Lemma count_peer_alerts c last n :
  count NodeUnresponsive (peer_alerts c last n) = 0%nat ∧
  count ConnectionRestored (peer_alerts c last n) = 0%nat ∧
  count LowPeerCount (peer_alerts c last n) =
    match last with
    | Some p => if (n <? 3)%Z && (3 <=? p)%Z then 1%nat else 0%nat
    | None => 0%nat
    end ∧
  count PeerRecovered (peer_alerts c last n) =
    match last with
    | Some p => if (3 <=? n)%Z && (p <? 3)%Z then 1%nat else 0%nat
    | None => 0%nat
    end.
Proof.
  unfold peer_alerts. destruct last as [p|]; [|done].
  destruct (Z.ltb_spec n 3), (Z.leb_spec 3 p), (Z.leb_spec 3 n),
    (Z.ltb_spec p 3); simpl; try lia; repeat split; reflexivity.
Qed.

Lemma count_peer_part c s :
  count NodeUnresponsive (peer_part c s) = 0%nat ∧
  count ConnectionRestored (peer_part c s) = 0%nat.
Proof.
  unfold peer_part. destruct (network_info (gather c)) as [ni|]; [|done].
  destruct (network_info_truthy ni); [|done].
  by destruct (count_peer_alerts c (last_peer_count s)
                 (default 0%Z (ni_connections ni))) as (? & ? & _).
Qed.

(** The two responsiveness alerts of one cycle, from the latch. *)
Lemma refresh_edge_counts c s :
  edge_counts (node_was_responsive s) c (refresh_data c s).2.
Proof.
  unfold edge_counts. destruct (chain_ok c) eqn:Hok.
  - apply chain_ok_Some in Hok as [bi Hbi].
    destruct (refresh_ok_full c s bi Hbi) as (-> & _).
    rewrite !count_app.
    destruct (count_peer_part c s) as [-> ->].
    unfold restored_alerts, sync_alerts.
    destruct (node_was_responsive s), (Tracker.truthy _); split; reflexivity.
  - apply chain_ok_None in Hok.
    destruct (refresh_failed_full c s Hok) as (-> & _).
    destruct (node_was_responsive s); split; reflexivity.
Qed.

Lemma run_cons s c cs :
  run s (c :: cs) =
    ((refresh_data c s).2 :: (run (refresh_data c s).1 cs).1,
     (run (refresh_data c s).1 cs).2).
Proof.
  simpl. destruct (refresh_data c s) as [s1 out]. simpl.
  by destruct (run s1 cs).
Qed.

Lemma run_edges s cs i c :
  cs !! i = Some c →
  ∃ out, (run s cs).1 !! i = Some out ∧
         edge_counts
           match i with
           | O => node_was_responsive s
           | S j => default true (chain_ok <$> cs !! j)
           end c out.
Proof.
  revert s i. induction cs as [|c0 cs IH]; intros s i Hc; [done|].
  rewrite run_cons. destruct i as [|i]; simpl in *.
  - injection Hc as ->. eexists; split; [done|]. apply refresh_edge_counts.
  - destruct (IH (refresh_data c0 s).1 i Hc) as (out & Hout & Hedge).
    exists out; split; [done|]. destruct i as [|i]; simpl in *; [|done].
    by rewrite refresh_responsive in Hedge.
Qed.


(** ** The snapshot of a cycle *)

(** C3, as the code has it.  A failed chain-state, network, peer or
    mempool query leaves its field of the snapshot absent; a failed uptime
    query leaves the field at the integer 0 (only the controller's
    [get_uptime] answers [None]). *)
Theorem failed_query_fields c :
  (∀ o, q_blockchain c = Ran o → fails o = true →
        blockchain_info (gather c) = None) ∧
  (∀ o, q_network c = Ran o → fails o = true →
        network_info (gather c) = None) ∧
  (∀ o, q_peers c = Ran o → fails o = true → peer_info (gather c) = None) ∧
  (∀ o, q_mempool c = Ran o → fails o = true →
        mempool_info (gather c) = None) ∧
  (∀ o, q_uptime c = Ran o → fails o = true →
        uptime (gather c) = Some 0%Z ∧ controller_get_uptime o = None).
Proof.
  unfold gather. simpl. split_and!; intros o -> Hf; simpl.
  - by apply run_command_fails.
  - by apply run_command_fails.
  - by apply run_command_fails.
  - by apply run_command_fails.
  - unfold get_uptime. rewrite run_command_fails by done.
    split; [done|]. by apply (run_command_fails o).
Qed.

(** C2.  When the chain-state query fails and the other queries reply,
    the snapshot lacks the chain state only.  The failing cycle raises the
    node-unresponsive alert if the latch was up and nothing else, leaves
    the tracker and the peer count alone, and hands the snapshot to the
    dashboard when the home tab is shown.  Over any run of cycles, a cycle
    raises the node-unresponsive alert once when its query fails and the
    previous cycle's replied (or, for the first cycle, the latch was up),
    the connection-restored alert once when its query replies and the
    previous cycle's failed, and neither alert otherwise. *)
Theorem chain_query_failure :
  (∀ c o ni ps mp up,
     q_blockchain c = Ran o → fails o = true →
     q_network c = Ran (Exited 0 (Some ni)) →
     q_peers c = Ran (Exited 0 (Some ps)) →
     q_mempool c = Ran (Exited 0 (Some mp)) →
     q_uptime c = Ran (Exited 0 (Some up)) →
     gather c =
       mkSnapshot (is_running c) None (Some ni) (Some ps) (Some mp)
                  (Some up)) ∧
  (∀ c s,
     chain_ok c = false →
     (refresh_data c s).2 =
       (if node_was_responsive s
        then [mkAlert (clock c) "Node not responding!" "error"] else []) ∧
     tracker (refresh_data c s).1 = tracker s ∧
     last_peer_count (refresh_data c s).1 = last_peer_count s ∧
     dashboard_panel (refresh_data c s).1 =
       if String.eqb (active_tab c) "home"
       then mkDashboard (is_running c) None (network_info (gather c))
              (uptime (gather c))
       else dashboard_panel s) ∧
  (∀ s cs i c,
     cs !! i = Some c →
     ∃ out, (run s cs).1 !! i = Some out ∧
            edge_counts
              match i with
              | O => node_was_responsive s
              | S j => default true (chain_ok <$> cs !! j)
              end c out).
Proof.
  split_and!.
  - intros c o ni ps mp up Hb Hf Hn Hp Hm Hu. unfold gather.
    rewrite Hb, Hn, Hp, Hm, Hu. simpl. unfold get_blockchain_info.
    by rewrite (run_command_fails o Hf).
  - intros c s Hok%chain_ok_None.
    by destruct (refresh_failed_full c s Hok) as (? & _ & ? & ? & ?).
  - apply run_edges.
Qed.

(** ** Peer-count alerts *)

Lemma refresh_peer_counts c s ni p :
  chain_ok c = true →
  network_info (gather c) = Some ni → network_info_truthy ni = true →
  last_peer_count s = Some p →
  let n := default 0%Z (ni_connections ni) in
  count LowPeerCount (refresh_data c s).2 =
    (if (n <? 3)%Z && (3 <=? p)%Z then 1 else 0)%nat ∧
  count PeerRecovered (refresh_data c s).2 =
    (if (3 <=? n)%Z && (p <? 3)%Z then 1 else 0)%nat ∧
  last_peer_count (refresh_data c s).1 = Some n.
Proof.
  intros [bi Hbi]%chain_ok_Some Hni Ht Hp n.
  destruct (refresh_ok_full c s bi Hbi) as (-> & _ & ->).
  unfold peer_part, peer_count_after. rewrite Hni, Ht, Hp. fold n.
  rewrite !count_app.
  destruct (count_peer_alerts c (Some p) n) as (_ & _ & -> & ->).
  unfold restored_alerts, sync_alerts.
  destruct (node_was_responsive s), (Tracker.truthy _); split_and!;
    reflexivity.
Qed.

(** C6.  With the peer counts 5, 5, 2, 2, 4 in five consecutive cycles,
    the only alerts are the low-peer-count warning of the third cycle and
    the recovery alert of the fifth.  In general a cycle that reads [n]
    peers after a cycle that read [p] raises the warning exactly when
    [n < 3 <= p], the recovery alert exactly when [p < 3 <= n], and so
    neither while the count stays on one side of the threshold. *)
Theorem peer_count_alerts :
  (run (init 0 "11:59:50") (Examples.peer_cycle <$> [5; 5; 2; 2; 4]%Z)).1 =
    [ []; [];
      [mkAlert "12:00:00" "Low peer count: 2" "warning"];
      [];
      [mkAlert "12:00:00" "Peer count recovered: 4" "success"] ] ∧
  (∀ c s ni p,
     chain_ok c = true →
     network_info (gather c) = Some ni → network_info_truthy ni = true →
     last_peer_count s = Some p →
     let n := default 0%Z (ni_connections ni) in
     count LowPeerCount (refresh_data c s).2 =
       (if (n <? 3)%Z && (3 <=? p)%Z then 1 else 0)%nat ∧
     count PeerRecovered (refresh_data c s).2 =
       (if (3 <=? n)%Z && (p <? 3)%Z then 1 else 0)%nat ∧
     last_peer_count (refresh_data c s).1 = Some n ∧
     (((n < 3)%Z ↔ (p < 3)%Z) →
      count LowPeerCount (refresh_data c s).2 = 0%nat ∧
      count PeerRecovered (refresh_data c s).2 = 0%nat)).
Proof.
  split; [reflexivity|]. intros c s ni p Hok Hni Ht Hp n.
  destruct (refresh_peer_counts c s ni p Hok Hni Ht Hp) as (Hl & Hr & Hn).
  fold n in Hl, Hr, Hn. split_and!; [done..|].
  intros Hside. rewrite Hl, Hr.
  destruct (Z.ltb_spec n 3), (Z.leb_spec 3 p), (Z.leb_spec 3 n),
    (Z.ltb_spec p 3); simpl; try done; lia.
Qed.

(** ** The theorems at concrete cycles *)

Lemma peer_count_alerts_witness :
  count LowPeerCount
    (refresh_data (Examples.peer_cycle 2)
       (mkState (Tracker.init 0 60) (Some 2%Z) true [] dashboard_init)).2
    = 0%nat.
Proof.
  destruct peer_count_alerts as [_ Hlaw].
  destruct (Hlaw (Examples.peer_cycle 2)
              (mkState (Tracker.init 0 60) (Some 2%Z) true [] dashboard_init)
              (mkNetworkInfo (Some 2%Z) []) 2%Z
              eq_refl eq_refl eq_refl eq_refl) as (_ & _ & _ & Hstay).
  apply Hstay. simpl. lia.
Defined.

Lemma chain_query_failure_witness :
  gather Examples.chain_down_cycle =
    mkSnapshot true None (Some (mkNetworkInfo (Some 8%Z) [])) (Some [])
               (Some []) (Some 3600%Z).
Proof.
  destruct chain_query_failure as (Hsnap & _ & _).
  apply (Hsnap Examples.chain_down_cycle TimedOut); reflexivity.
Defined.

Lemma failed_query_fields_witness :
  network_info (gather Examples.down_cycle) = None.
Proof.
  destruct (failed_query_fields Examples.down_cycle) as (_ & Hnet & _).
  apply (Hnet TimedOut); reflexivity.
Defined.

(** C3, as the specification states it, fails: the uptime query times
    out and the snapshot holds the integer 0, not an absent value. *)
Lemma failed_uptime_is_zero :
  q_uptime Examples.down_cycle = Ran TimedOut ∧
  uptime (gather Examples.down_cycle) = Some 0%Z ∧
  uptime (gather Examples.down_cycle) ≠ None.
Proof. split_and!; done. Qed.

End AppFacts.

(* ===================================================================== *)
(** * The ring of samples of SyncStatsTracker *)
(* ===================================================================== *)

Module TrackerRing.

Import Tracker TrackerFacts.

Lemma deque_append_full {A} cap (d : list A) x :
  (length d ≤ cap)%nat →
  deque_append cap d x = drop (S (length d) - cap) (d ++ [x]).
Proof.
  intros Hd. unfold deque_append. rewrite length_app. simpl.
  destruct (Nat.ltb_spec cap (length d + 1)).
  - replace (S (length d) - cap)%nat with 1%nat by lia.
    by destruct (d ++ [x]).
  - by replace (S (length d) - cap)%nat with 0%nat by lia.
Qed.

Lemma feed_cons t c cs : feed t (c :: cs) = feed (update_call t c).2 cs.
Proof. reflexivity. Qed.

(** The ring keeps the newest [max_history] samples. *)
Lemma history_feed_suffix t cs :
  (length (history t) ≤ max_history t)%nat →
  max_history (feed t cs) = max_history t ∧
  history (feed t cs) =
    drop (length (history t) + length cs - max_history t)
         (history t ++ (sample_of <$> cs)).
Proof.
  revert t. induction cs as [|c cs IH]; intros t Ht.
  - split; [done|]. simpl. rewrite app_nil_r.
    by replace (length (history t) + 0 - max_history t)%nat with 0%nat by lia.
  - rewrite feed_cons.
    assert (history (update_call t c).2 =
            drop (S (length (history t)) - max_history t)
                 (history t ++ [sample_of c])) as Hh.
    { apply (deque_append_full (max_history t) (history t) (sample_of c) Ht). }
    assert (max_history (update_call t c).2 = max_history t) as Hm by done.
    destruct (IH (update_call t c).2) as [IHm IHh].
    { rewrite Hh, Hm, length_drop, length_app. simpl. lia. }
    rewrite IHm, IHh, Hm, Hh. split; [done|].
    rewrite length_drop, length_app. simpl.
    rewrite <- (drop_app_le (history t ++ [sample_of c]) (sample_of <$> cs))
      by (rewrite length_app; simpl; lia).
    rewrite drop_drop, <- app_assoc. simpl. f_equal. lia.
Qed.

Lemma history_feed_init now0 cap (cs : list Call) :
  history (feed (init now0 cap) cs) =
    drop (length cs - cap) (sample_of <$> cs).
Proof.
  destruct (history_feed_suffix (init now0 cap) cs) as [_ H];
    [simpl; lia|].
  by simpl in H.
Qed.

(** The window of the rate is the newest 12 samples, or the newest [cap]
    when the ring is smaller. *)
Lemma recent_data_feed_init now0 cap (cs : list Call) :
  recent_data (feed (init now0 cap) cs) =
    drop (length cs - (12 `min` cap)) (sample_of <$> cs).
Proof.
  unfold recent_data. rewrite history_feed_init.
  rewrite length_drop, length_fmap, drop_drop. f_equal. lia.
Qed.

(** X1.  After any sequence of [update] calls on a fresh tracker of
    capacity [cap], the capacity is unchanged and the history is the
    newest [cap] samples in call order: the oldest samples are the ones
    evicted. *)
Theorem history_is_newest_samples now0 cap (cs : list Call) :
  max_history (feed (init now0 cap) cs) = cap ∧
  history (feed (init now0 cap) cs) =
    drop (length cs - cap) (sample_of <$> cs) ∧
  length (history (feed (init now0 cap) cs)) = (length cs `min` cap)%nat.
Proof.
  destruct (history_feed_suffix (init now0 cap) cs) as [Hm H];
    [simpl; lia|].
  simpl in H. rewrite H. split_and!; [done|done|].
  rewrite length_drop, length_fmap. lia.
Qed.

Lemma initial_blocks_feed t cs b :
  initial_blocks t = Some b → initial_blocks (feed t cs) = Some b.
Proof.
  revert t. induction cs as [|c cs IH]; intros t Hb; [done|].
  rewrite feed_cons. apply IH. simpl. by rewrite Hb.
Qed.

Lemma last_drop_lt {A} (l : list A) k :
  (k < length l)%nat → last (drop k l) = last l.
Proof.
  intros Hk. rewrite !last_lookup, lookup_drop, length_drop. f_equal. lia.
Qed.

(** X3.  [get_blocks_synced] is the height of the newest call minus the
    height of the first call ever, also after that first sample has left
    the ring; a ring of capacity 0 gives 0. *)
Theorem blocks_synced_since_first now0 cap c0 (cs : list Call) cn :
  last (c0 :: cs) = Some cn →
  get_blocks_synced (feed (init now0 cap) (c0 :: cs)) =
    if decide (cap = 0%nat) then 0 else c_blocks cn - c_blocks c0.
Proof.
  intros Hn. unfold get_blocks_synced.
  pose proof (history_feed_init now0 cap (c0 :: cs)) as Hh.
  assert (length (history (feed (init now0 cap) (c0 :: cs)))
          = (length (c0 :: cs) `min` cap)%nat) as Hlen.
  { rewrite Hh, length_drop, length_fmap. lia. }
  assert (initial_blocks (feed (init now0 cap) (c0 :: cs))
          = Some (c_blocks c0)) as ->.
  { rewrite feed_cons. by apply initial_blocks_feed. }
  destruct (decide (cap = 0%nat)) as [->|Hcap].
  - rewrite Nat.min_0_r in Hlen.
    by destruct (history (feed (init now0 0) (c0 :: cs))).
  - rewrite Hh, last_drop_lt by (rewrite length_fmap; simpl; lia).
    by rewrite fmap_last, Hn.
Qed.

(** X2.  With two calls or more and a ring of two or more,
    [get_blocks_per_hour] is the height gained between the newest call
    and the call [min 12 cap - 1] places before it, per hour elapsed
    between the two, and 0 when no time elapsed: older samples do not
    count. *)
Theorem rate_over_window now0 cap (cs : list Call) o n :
  (2 ≤ cap)%nat → (2 ≤ length cs)%nat →
  cs !! (length cs - (12 `min` cap))%nat = Some o →
  last cs = Some n →
  get_blocks_per_hour (feed (init now0 cap) cs) =
    if c_now n - c_now o =? 0 then 0%Q
    else (inject_Z (c_blocks n - c_blocks o)
          / (total_seconds (c_now n - c_now o) / 3600))%Q.
Proof.
  intros Hcap Hlen Ho Hn.
  pose proof (recent_data_feed_init now0 cap cs) as Hw.
  assert (head (recent_data (feed (init now0 cap) cs)) = Some (sample_of o))
    as Hhead.
  { rewrite Hw, head_lookup, lookup_drop, Nat.add_0_r, list_lookup_fmap.
    by rewrite Ho. }
  assert (last (recent_data (feed (init now0 cap) cs)) = Some (sample_of n))
    as Hlast.
  { rewrite Hw, last_drop_lt, fmap_last by (rewrite length_fmap; lia).
    by rewrite Hn. }
  rewrite (blocks_per_hour_window _ _ _ Hhead Hlast).
  rewrite Hw, length_drop, length_fmap.
  destruct (Nat.ltb_spec (length cs - (length cs - 12 `min` cap)) 2); [lia|].
  done.
Qed.

(** X4.  At a positive rate and with blocks left to fetch, [get_eta] is
    present and positive, and it does not grow when the current height
    grows. *)
Theorem eta_shrinks_with_progress t cur1 cur2 tot :
  (0 < get_blocks_per_hour t)%Q → cur1 <= cur2 → cur2 < tot →
  ∃ d1 d2, get_eta t cur1 tot = Some d1 ∧ get_eta t cur2 tot = Some d2 ∧
           (0 < td_hours d2)%Q ∧ (td_hours d2 <= td_hours d1)%Q.
Proof.
  intros Hr H12 H2. unfold get_eta.
  assert (Qeq_bool (get_blocks_per_hour t) 0 = false) as ->.
  { apply not_true_is_false. intros E%Qeq_bool_iff. rewrite E in Hr.
    by apply Qlt_irrefl in Hr. }
  destruct (Z.leb_spec tot cur1); [lia|]. destruct (Z.leb_spec tot cur2); [lia|].
  simpl. eexists _, _. split_and!; [done|done|..]; simpl.
  - apply quotient_pos; [lia|done].
  - apply Qmult_le_compat_r.
    + rewrite <- Zle_Qle. lia.
    + apply Qlt_le_weak, Qinv_lt_0_compat, Hr.
Qed.

Lemma rate_over_window_witness :
  get_blocks_per_hour (feed (init 0 2) Examples.sync_calls) =
    (inject_Z (111 - 110) / (total_seconds (30000000 - 20000000) / 3600))%Q.
Proof.
  apply (rate_over_window 0 2 Examples.sync_calls
           (mkCall 20000000 110 110 false) (mkCall 30000000 111 111 false));
    [lia | simpl; lia | reflexivity | reflexivity].
Defined.

Lemma blocks_synced_since_first_witness :
  get_blocks_synced (feed (init 0 2) Examples.sync_calls) = 111 - 100.
Proof.
  apply (blocks_synced_since_first 0 2 (mkCall 0 100 110 true)
           (tail Examples.sync_calls) (mkCall 30000000 111 111 false)).
  reflexivity.
Defined.

Lemma eta_shrinks_with_progress_witness :
  ∃ d1 d2,
    get_eta (feed (init 0 60) Examples.steady_calls) 100 110 = Some d1 ∧
    get_eta (feed (init 0 60) Examples.steady_calls) 106 110 = Some d2 ∧
    (0 < td_hours d2)%Q ∧ (td_hours d2 <= td_hours d1)%Q.
Proof.
  apply (eta_shrinks_with_progress
           (feed (init 0 60) Examples.steady_calls) 100 106 110);
    [reflexivity | lia | lia].
Defined.

End TrackerRing.

(* ===================================================================== *)
(** * One refresh cycle: panels and tracker *)
(* ===================================================================== *)

Module CycleFacts.

Import Rpc App AppFacts.
Local Open Scope string_scope.
Local Open Scope list_scope.

Lemma add_alert_last (alerts extra : list Alert) clock m l P :
  alerts = drop (length (P ++ extra) - 5) (P ++ extra) →
  add_alert clock m l alerts =
    drop (length (P ++ extra ++ [mkAlert clock m l]) - 5)
         (P ++ extra ++ [mkAlert clock m l]).
Proof.
  intros ->. unfold add_alert. set (L := P ++ extra).
  rewrite (app_assoc P extra). fold L.
  destruct (decide (length L ≤ 5)%nat).
  - replace (length L - 5)%nat with 0%nat by lia. by rewrite drop_0.
  - rewrite <- (drop_app_le L [_]) by lia. rewrite drop_drop.
    f_equal. rewrite length_drop, !length_app. simpl. lia.
Qed.

(** The state and the alerts of a cycle move together: the panel holds
    the newest five of its old content followed by the alerts raised. *)
Lemma alert_tracks c m l (r : Run) P :
  alerts_panel r.1 = drop (length (P ++ r.2) - 5) (P ++ r.2) →
  alerts_panel (alert c m l r).1 =
    drop (length (P ++ (alert c m l r).2) - 5) (P ++ (alert c m l r).2).
Proof. destruct r as [s out]. simpl. apply add_alert_last. Qed.

Lemma peer_step_tracks c snap (r : Run) P :
  alerts_panel r.1 = drop (length (P ++ r.2) - 5) (P ++ r.2) →
  alerts_panel (peer_step c snap r).1 =
    drop (length (P ++ (peer_step c snap r).2) - 5)
         (P ++ (peer_step c snap r).2).
Proof.
  intros H. unfold peer_step. repeat case_match; try done;
    match goal with
    | |- context [alert ?c ?m ?l r] =>
        pose proof (alert_tracks c m l r P H);
        by destruct (alert c m l r)
    | _ => by destruct r
    end.
Qed.

(** X5.  A panel of at most five alerts holds, after a cycle, the newest
    five of its old alerts followed by the alerts of the cycle, and so
    again at most five. *)
Theorem panel_keeps_newest_five c s :
  (length (alerts_panel s) ≤ 5)%nat →
  alerts_panel (refresh_data c s).1 =
    drop (length (alerts_panel s ++ (refresh_data c s).2) - 5)
         (alerts_panel s ++ (refresh_data c s).2) ∧
  (length (alerts_panel (refresh_data c s).1) ≤ 5)%nat.
Proof.
  intros Hlen.
  enough (alerts_panel (refresh_data c s).1 =
          drop (length (alerts_panel s ++ (refresh_data c s).2) - 5)
               (alerts_panel s ++ (refresh_data c s).2)) as H.
  { split; [done|]. rewrite H, length_drop. lia. }
  set (P := alerts_panel s).
  assert (alerts_panel ((s, []) : Run).1
          = drop (length (P ++ ((s, []) : Run).2) - 5)
                 (P ++ ((s, []) : Run).2)) as H0.
  { simpl. rewrite app_nil_r. unfold P.
    by replace (length (alerts_panel s) - 5)%nat with 0%nat by lia. }
  unfold refresh_data.
  set (r1 := if String.eqb (active_tab c) "home" then _ else _).
  assert (alerts_panel r1.1 = drop (length (P ++ r1.2) - 5) (P ++ r1.2)) as H1.
  { unfold r1. by destruct (String.eqb _ _). }
  clearbody r1. destruct (blockchain_info (gather c)) as [bi|].
  - set (r2 := if negb _ then _ else _).
    assert (alerts_panel r2.1 = drop (length (P ++ r2.2) - 5) (P ++ r2.2))
      as H2.
    { unfold r2. destruct (negb _); [|done].
      pose proof (alert_tracks c "Node connection restored" "success" r1 P H1).
      by destruct (alert _ _ _ r1). }
    clearbody r2. destruct (Tracker.update _ _ _ _ _) as [flag t'].
    apply peer_step_tracks.
    destruct (Tracker.truthy flag).
    + apply alert_tracks. by destruct r2.
    + by destruct r2.
  - destruct (node_was_responsive r1.1); [|done].
    pose proof (alert_tracks c "Node not responding!" "error" r1 P H1).
    by destruct (alert _ _ _ r1).
Qed.

(** ** What the other fields of the state become *)

Lemma alert_keeps c m l (r : Run) :
  dashboard_panel (alert c m l r).1 = dashboard_panel r.1 ∧
  tracker (alert c m l r).1 = tracker r.1.
Proof. by destruct r. Qed.

Lemma peer_step_keeps c snap (r : Run) :
  dashboard_panel (peer_step c snap r).1 = dashboard_panel r.1 ∧
  tracker (peer_step c snap r).1 = tracker r.1.
Proof.
  unfold peer_step. repeat case_match; try done;
    match goal with
    | |- context [alert ?c ?m ?l r] =>
        destruct (alert_keeps c m l r); by destruct (alert c m l r)
    | _ => by destruct r
    end.
Qed.

(** X7.  A cycle hands the gathered values to the dashboard exactly when
    the home tab is shown, whether the chain-state query replied or not;
    on every other tab the dashboard keeps what it had. *)
Theorem dashboard_follows_home_tab c s :
  dashboard_panel (refresh_data c s).1 =
    if String.eqb (active_tab c) "home"
    then mkDashboard (is_running c) (blockchain_info (gather c))
           (network_info (gather c)) (uptime (gather c))
    else dashboard_panel s.
Proof.
  unfold refresh_data.
  set (r1 := if String.eqb (active_tab c) "home" then _ else _).
  assert (dashboard_panel r1.1 =
          if String.eqb (active_tab c) "home"
          then mkDashboard (is_running c) (blockchain_info (gather c))
                 (network_info (gather c)) (uptime (gather c))
          else dashboard_panel s) as <-.
  { unfold r1. by destruct (String.eqb _ _). }
  clearbody r1. destruct (blockchain_info (gather c)) as [bi|].
  - set (r2 := if negb _ then _ else _).
    assert (dashboard_panel r2.1 = dashboard_panel r1.1) as <-.
    { unfold r2. destruct (negb _); [|done].
      destruct (alert_keeps c "Node connection restored" "success" r1).
      by destruct (alert _ _ _ r1). }
    clearbody r2. destruct (Tracker.update _ _ _ _ _) as [flag t'].
    rewrite (proj1 (peer_step_keeps _ _ _)).
    destruct (Tracker.truthy flag).
    + rewrite (proj1 (alert_keeps _ _ _ _)). by destruct r2.
    + by destruct r2.
  - destruct (node_was_responsive r1.1); [|done].
    destruct (alert_keeps c "Node not responding!" "error" r1).
    by destruct (alert _ _ _ r1).
Qed.

(** X8.  A cycle whose chain-state query replied feeds the tracker once,
    with 0 and [False] for the keys the reply lacks, and raises the
    sync-completed alert exactly when the tracker's latch was syncing and
    the reply is not; a cycle whose query failed leaves the tracker and
    its latch as they were and raises no such alert. *)
Theorem tracker_follows_chain_reply c s :
  match blockchain_info (gather c) with
  | Some bi =>
      tracker (refresh_data c s).1 =
        (Tracker.update (tracker s) (now c)
           (default 0 (bi_blocks bi)) (default 0 (bi_headers bi))
           (default false (bi_initialblockdownload bi))).2 ∧
      count SyncCompleted (refresh_data c s).2 =
        (if bool_decide (Tracker.was_syncing (tracker s) = Some true)
            && negb (default false (bi_initialblockdownload bi))
         then 1 else 0)%nat
  | None =>
      tracker (refresh_data c s).1 = tracker s ∧
      count SyncCompleted (refresh_data c s).2 = 0%nat
  end.
Proof.
  destruct (blockchain_info (gather c)) as [bi|] eqn:Hbi.
  - split.
    + unfold refresh_data. rewrite Hbi.
      set (r1 := if String.eqb (active_tab c) "home" then _ else _).
      assert (tracker r1.1 = tracker s) as <-.
      { unfold r1. by destruct (String.eqb _ _). }
      clearbody r1. set (r2 := if negb _ then _ else _).
      assert (tracker r2.1 = tracker r1.1) as <-.
      { unfold r2. destruct (negb _); [|done].
        destruct (alert_keeps c "Node connection restored" "success" r1).
        by destruct (alert _ _ _ r1). }
      clearbody r2. unfold Tracker.update.
      rewrite (proj2 (peer_step_keeps _ _ _)).
      destruct (Tracker.truthy _).
      * rewrite (proj2 (alert_keeps _ _ _ _)). by destruct r2.
      * by destruct r2.
    + destruct (refresh_ok_full c s bi Hbi) as (-> & _).
      rewrite !count_app. unfold restored_alerts, sync_alerts.
      assert (count SyncCompleted (peer_part c s) = 0%nat) as ->.
      { unfold peer_part, peer_alerts. repeat case_match; reflexivity. }
      rewrite Nat.add_0_r.
      destruct (node_was_responsive s),
        (Tracker.was_syncing (tracker s)) as [[]|],
        (default false (bi_initialblockdownload bi)); reflexivity.
  - destruct (refresh_failed_full c s Hbi) as (-> & _ & -> & _).
    split; [done|]. by destruct (node_was_responsive s).
Qed.

(** X6.  While no peer count has been recorded, a cycle raises neither
    peer alert, whatever count it reads: a dashboard started on a node
    with no peers does not warn. *)
Theorem first_reading_raises_no_peer_alert c s :
  last_peer_count s = None →
  count LowPeerCount (refresh_data c s).2 = 0%nat ∧
  count PeerRecovered (refresh_data c s).2 = 0%nat.
Proof.
  intros Hnone. destruct (blockchain_info (gather c)) as [bi|] eqn:Hbi.
  - destruct (refresh_ok_full c s bi Hbi) as (-> & _).
    rewrite !count_app. unfold restored_alerts, sync_alerts.
    assert (peer_part c s = []) as ->.
    { unfold peer_part. rewrite Hnone. by repeat case_match. }
    destruct (node_was_responsive s), (Tracker.truthy _); split; reflexivity.
  - destruct (refresh_failed_full c s Hbi) as (-> & _).
    destruct (node_was_responsive s); split; reflexivity.
Qed.

Lemma panel_keeps_newest_five_witness :
  (length (alerts_panel
     (refresh_data Examples.chain_down_cycle (init 0 "12:00:00")).1) ≤ 5)%nat.
Proof.
  apply (panel_keeps_newest_five Examples.chain_down_cycle
           (init 0 "12:00:00")).
  simpl. lia.
Defined.

Lemma first_reading_raises_no_peer_alert_witness :
  count LowPeerCount
    (refresh_data (Examples.peer_cycle 0) (init 0 "12:00:00")).2 = 0%nat.
Proof.
  apply (first_reading_raises_no_peer_alert (Examples.peer_cycle 0)
           (init 0 "12:00:00")).
  reflexivity.
Defined.

End CycleFacts.

(* ===================================================================== *)
(** * Writing the configuration and reading it back *)
(* ===================================================================== *)

Module RoundTripFacts.

Import Py PyFacts Config ConfigFacts.
Local Open Scope string_scope.
Local Open Scope list_scope.
Local Arguments String.append !_ _ / : simpl nomatch.


Lemma scan_nil k acc : scan k acc "" = acc.
Proof. reflexivity. Qed.
















End RoundTripFacts.

(* ===================================================================== *)
(** * The configuration file as a store *)
(* ===================================================================== *)

Module StoreFacts.

Import Py PyFacts Config ConfigFacts.
Local Open Scope string_scope.
Local Open Scope list_scope.
Local Arguments String.append !_ _ / : simpl nomatch.

(** ** [read_config] *)

Lemma dict_set_keys {V} k (v : V) d :
  (dict_set k v d).*1 = if dict_mem k d then d.*1 else d.*1 ++ [k].
Proof.
  unfold dict_mem. induction d as [|[k' v'] d IH]; csimpl; [done|].
  destruct (String.eqb_spec k k') as [->|Hne]; csimpl; [done|].
  rewrite IH. by destruct (dict_get k d).
Qed.

Lemma dict_mem_keys {V} k (d : dict V) : dict_mem k d = true ↔ k ∈ d.*1.
Proof.
  unfold dict_mem. induction d as [|[k' v'] d IH]; csimpl.
  - split; [done|by intros ?%elem_of_nil].
  - destruct (String.eqb_spec k k') as [->|Hne].
    + split; [intros _; left|done].
    + rewrite IH. split; [by right|].
      by intros [?|?]%elem_of_cons.
Qed.

Lemma dict_set_NoDup {V} k (v : V) d :
  NoDup d.*1 → NoDup (dict_set k v d).*1.
Proof.
  intros Hnd. rewrite dict_set_keys.
  destruct (dict_mem k d) eqn:E; [done|].
  apply NoDup_app. split_and!; [done| |apply NoDup_singleton].
  intros x Hx ->%list_elem_of_singleton.
  apply dict_mem_keys in Hx. congruence.
Qed.

Lemma bind_None k lines :
  foldl (bind k) None lines = None ↔
  Forall (λ line, line_key line ≠ Some k) lines.
Proof.
  induction lines as [|line lines IH] using rev_ind.
  - split; [by constructor|done].
  - rewrite foldl_snoc, Forall_app, Forall_singleton, <- IH.
    rewrite line_key_parse. unfold bind at 1.
    destruct (parse_line line) as [[k' v]|]; simpl.
    + destruct (String.eqb_spec k k') as [->|Hne].
      * split; [done|]. by intros [_ ?].
      * split; [intros ?; split; [done|congruence]|by intros [? _]].
    + split; [by intros ?|by intros [? _]].
Qed.

(** X10.  [read_config] returns a dict (no key twice), the empty dict
    when the file is missing, and has no entry for [k] exactly when no
    line of the file has the key [k]. *)
Theorem read_config_is_a_dict fs :
  NoDup (read_config fs).*1 ∧
  (conf fs = None → read_config fs = []) ∧
  ∀ text k, conf fs = Some text →
    (dict_get k (read_config fs) = None ↔
     ∀ line, line ∈ readlines text → line_key line ≠ Some k).
Proof.
  split_and!.
  - unfold read_config. destruct (conf fs) as [text|]; [|constructor].
    unfold read_lines. generalize (readlines text). intros lines.
    induction lines as [|line lines IH] using rev_ind; [constructor|].
    rewrite foldl_snoc, read_line_parse.
    destruct (parse_line line) as [[k v]|]; [|done].
    by apply dict_set_NoDup.
  - unfold read_config. by intros ->.
  - intros text k Hc. rewrite (dict_get_read_config k fs text Hc).
    unfold scan. rewrite bind_None. apply Forall_forall.
Qed.

(** ** [write_config] *)


(** X12.  The result of [write_config] and the new text of the file do
    not depend on whether the backup copy succeeds; a failed copy leaves
    the backups as they were, a successful one stores the old text under
    [bitcoin.conf.backup.<stamp>]. *)
Theorem backup_is_best_effort settings e fs text :
  conf fs = Some text →
  let failing := mkEnv (stamp e) true (read_error e) in
  let name := "bitcoin.conf.backup." +:+ stamp e in
  (write_config settings e fs).1 = (write_config settings failing fs).1 ∧
  conf (write_config settings e fs).2
    = conf (write_config settings failing fs).2 ∧
  backups (write_config settings failing fs).2 = backups fs ∧
  (copy_fails e = false →
   backups (write_config settings e fs).2 = <[name := text]> (backups fs)).
Proof.
  intros Hc failing name.
  rewrite !(write_config_conf _ _ _ _ Hc). unfold failing. simpl.
  unfold backup_config. rewrite Hc. simpl.
  destruct (read_error e), (copy_fails e); simpl; split_and!; done.
Qed.

(** X13.  For any settings whose values hold no line feed,
    [write_config] leaves every line whose key is not among the settings
    (comments, blank lines, other keys) at its line number with its
    content. *)
Theorem write_config_frame settings e fs text :
  conf fs = Some text → values_one_line settings →
  ∃ text',
    conf (write_config settings e fs).2 = Some text' ∧
    ∀ n line,
      readlines text !! n = Some line →
      (∀ k, line_key line = Some k → dict_get k settings = None) →
      content <$> (readlines text' !! n) = Some (content line).
Proof.
  intros Hc Hv. rewrite (write_config_conf _ _ _ _ Hc).
  destruct (read_error e); simpl.
  { exists text. rewrite conf_backup. split; [done|]. by intros n line ->. }
  eexists. split; [done|]. intros n line Hn Hk.
  rewrite rewrite_lines_spec, writelines_app.
  apply frame_text; [done|apply added_tail|done|].
  by apply rewritten_other.
Qed.

Lemma read_config_is_a_dict_witness :
  dict_get "prune" (read_config Examples.conf_fs) = None.
Proof.
  destruct (read_config_is_a_dict Examples.conf_fs) as (_ & _ & H).
  apply (H _ "prune" eq_refl).
  intros line Hin. apply list_elem_of_In in Hin. vm_compute in Hin.
  destruct Hin as [<-|[<-|[<-|[<-|[]]]]]; intros H'; vm_compute in H';
    discriminate.
Defined.


Lemma backup_is_best_effort_witness :
  backups (write_config staged Examples.quiet_env Examples.conf_fs).2 !!
    "bitcoin.conf.backup.20240101_120000"
    = conf Examples.conf_fs.
Proof.
  pose proof (backup_is_best_effort staged Examples.quiet_env
                Examples.conf_fs _ eq_refl) as H.
  cbv zeta in H. destruct H as (_ & _ & _ & H).
  rewrite (H eq_refl). apply lookup_insert_eq.
Defined.

Lemma write_config_frame_witness :
  ∃ text',
    conf (write_config staged Examples.quiet_env Examples.conf_fs).2
      = Some text' ∧
    content <$> (readlines text' !! 3%nat) = Some "txindex=1".
Proof.
  assert (values_one_line staged) as Hv.
  { repeat apply Forall_cons_2; [| |apply Forall_nil_2]; reflexivity. }
  destruct (write_config_frame staged Examples.quiet_env Examples.conf_fs _
              eq_refl Hv) as (text' & Hconf & Hframe).
  exists text'. split; [exact Hconf|].
  apply (Hframe 3%nat ("txindex=1" +:+ nl)); [reflexivity|].
  intros k Hk. vm_compute in Hk. injection Hk as <-. reflexivity.
Defined.

End StoreFacts.

(* ===================================================================== *)
(** * Staging changes in the settings panel *)
(* ===================================================================== *)

Module PanelFacts.

Import Py Config Settings ConfigFacts SettingsFacts.
Import RoundTripFacts StoreFacts.
Local Open Scope string_scope.
Local Open Scope list_scope.

(** ** Validation *)

(** X14.  For the four gated keys, a value that is not a string of
    decimal digits (empty, signed, fractional, spaced) is refused, with
    the message naming the key. *)
Theorem gated_keys_need_digits key value :
  is_Some (validations key) → isdigit value = false →
  validate_setting key value = (false, "Invalid value for " +:+ key).
Proof.
  intros [rule Hrule] Hd. unfold validate_setting. rewrite Hrule.
  assert (rule value = false) as ->; [|done].
  unfold validations in Hrule.
  repeat (destruct (String.eqb key _);
          [injection Hrule as <-; rewrite Hd; simpl;
           try (destruct (String.eqb_spec value "0") as [->|]; done); done|]).
  done.
Qed.

Lemma first_invalid_None changes :
  first_invalid changes = None ↔
  Forall (λ kv, (validate_setting kv.1 kv.2).1 = true) changes.
Proof.
  induction changes as [|[k v] changes IH]; simpl.
  - split; [constructor|done].
  - rewrite Forall_cons, <- IH. simpl.
    destruct (validate_setting k v) as [[] msg]; simpl.
    + split; [done|by intros [_ ?]].
    + split; [done|by intros [? _]].
Qed.

Lemma dict_set_Forall {V} (P : string * V → Prop) k v d :
  P (k, v) → Forall P d → Forall P (dict_set k v d).
Proof.
  intros Hkv. induction 1 as [|[k' v'] d Hx Hd IH]; simpl.
  - by repeat constructor.
  - destruct (String.eqb_spec k k') as [->|]; by constructor.
Qed.

Lemma stageable_set k v changes :
  (validate_setting k v).1 = true → round_trips (k, v) →
  stageable changes → stageable (dict_set k v changes).
Proof.
  intros Hv Hr (Hnd & Hfi & Hrt). split_and!.
  - by apply dict_set_NoDup.
  - apply first_invalid_None, dict_set_Forall; [done|].
    by apply first_invalid_None.
  - by apply dict_set_Forall.
Qed.

Lemma option_round_trips k v :
  (k, v) ∈ [ ("prune", "0"); ("prune", "4096"); ("prune", "10240");
             ("prune", "51200"); ("maxconnections", "10");
             ("maxconnections", "25"); ("maxconnections", "50");
             ("maxconnections", "125"); ("dbcache", "300");
             ("dbcache", "450"); ("dbcache", "1000"); ("dbcache", "2000");
             ("server", "1"); ("server", "0") ] →
  (validate_setting k v).1 = true ∧ round_trips (k, v).
Proof.
  intros Hin. apply list_elem_of_In in Hin. simpl in Hin.
  repeat (destruct Hin as [[= <- <-]|Hin]; [by vm_compute|]). done.
Qed.

(** X15.  A click on any option label of the settings panel keeps the
    pending change set stageable: still a dict, every entry valid and
    round-tripping.  It changes neither the loaded settings nor the
    file, and starts no worker. *)
Theorem option_clicks_stage_valid_values label p fs :
  label ∈ option_labels → stageable (pending_changes p) →
  let '(p', alerts, worker) := on_click (Some label) p fs in
  stageable (pending_changes p') ∧
  current_settings p' = current_settings p ∧
  alerts = [] ∧ worker = None.
Proof.
  intros Hin Hst. apply list_elem_of_In in Hin. simpl in Hin.
  repeat (destruct Hin as [<-|Hin];
          [simpl; split_and!; try done;
           apply stageable_set; try done;
           (eapply option_round_trips; apply list_elem_of_In; simpl;
            tauto)|]).
  done.
Qed.

Lemma gated_keys_need_digits_witness :
  validate_setting "maxconnections" "-5"
    = (false, "Invalid value for maxconnections").
Proof.
  apply (gated_keys_need_digits "maxconnections" "-5");
    [by eexists | reflexivity].
Defined.

Lemma option_clicks_stage_valid_values_witness :
  let '(p', alerts, worker) :=
    on_click (Some "prune-4096") Examples.good_panel Examples.conf_fs in
  stageable (pending_changes p') ∧
  current_settings p' = current_settings Examples.good_panel ∧
  alerts = [] ∧ worker = None.
Proof.
  apply (option_clicks_stage_valid_values "prune-4096" Examples.good_panel
           Examples.conf_fs).
  - apply list_elem_of_In. simpl. auto.
  - split_and!.
    + apply (bool_decide_unpack _). reflexivity.
    + reflexivity.
    + apply Forall_cons_2; [|apply Forall_nil_2]. split_and!; reflexivity.
Defined.

End PanelFacts.

(* ===================================================================== *)
(** * Applying the staged changes *)
(* ===================================================================== *)

Module ApplyFacts.

Import Py Config Settings ConfigFacts SettingsFacts.
Import RoundTripFacts StoreFacts PanelFacts.
Local Open Scope string_scope.
Local Open Scope list_scope.











End ApplyFacts.

(* ===================================================================== *)
(** * The actions of the controls panel *)
(* ===================================================================== *)

Module ControlsFacts.

Import Settings Controls.
Local Open Scope string_scope.
Local Open Scope list_scope.



End ControlsFacts.

(* ===================================================================== *)
(** * The list of recent blocks *)
(* ===================================================================== *)

Module BlocksFacts.

Import Rpc Blocks.
Local Open Scope list_scope.

Lemma valid_hashes_cons node h hs :
  valid_hashes node (h :: hs) = valid_hashes node hs ∨
  ∃ hash_val, run_command (block_hash node h) = Some hash_val ∧
              hash_val ≠ ""%string ∧
              valid_hashes node (h :: hs) = (h, hash_val) :: valid_hashes node hs.
Proof.
  unfold valid_hashes. simpl.
  destruct (run_command (block_hash node h)) as [hv|]; [|by left].
  destruct (String.eqb_spec hv ""); [by left|]. right. by exists hv.
Qed.

Lemma valid_hashes_Forall node (P : Z → Prop) hs :
  Forall P hs → Forall (λ v, P v.1) (valid_hashes node hs).
Proof.
  induction 1 as [|h hs Hh Hhs IH]; [constructor|].
  destruct (valid_hashes_cons node h hs) as [->|(hv & _ & _ & ->)];
    [done|by constructor].
Qed.

Lemma valid_hashes_listed node hs :
  StronglySorted (λ a b, b < a) hs →
  (length (valid_hashes node hs) ≤ length hs)%nat ∧
  StronglySorted (λ a b, b.1 < a.1) (valid_hashes node hs) ∧
  Forall (λ v, run_command (block_hash node v.1) = Some v.2 ∧
               v.2 ≠ ""%string) (valid_hashes node hs).
Proof.
  induction 1 as [|h hs Hs IH Hh]; [by repeat constructor|].
  destruct IH as (Hlen & Hsort & Hall).
  destruct (valid_hashes_cons node h hs) as [->|(hv & Hrun & Hne & ->)].
  - split_and!; [simpl; lia|done..].
  - split_and!; [simpl; lia| |by constructor].
    constructor; [done|]. by apply (valid_hashes_Forall node (λ b, b < h)).
Qed.

Lemma new_blocks_cons node h hv valid :
  new_blocks node ((h, hv) :: valid) = new_blocks node valid ∨
  ∃ b, height b = h ∧ hash b = hv ∧
       is_Some (run_command (block node hv)) ∧
       new_blocks node ((h, hv) :: valid) = b :: new_blocks node valid.
Proof.
  unfold new_blocks. simpl.
  destruct (run_command (block node hv)) as [reply|]; [|by left].
  destruct (reply_truthy reply); [|by left]. right.
  eexists. split_and!; [..|done]; by eauto.
Qed.

Lemma new_blocks_Forall node (P : Z → string → Prop) valid :
  Forall (λ v, P v.1 v.2) valid →
  Forall (λ b, P (height b) (hash b)) (new_blocks node valid).
Proof.
  induction 1 as [|[h hv] valid Hh Hv IH]; [constructor|].
  destruct (new_blocks_cons node h hv valid)
    as [->|(b & <- & <- & _ & ->)]; [done|by constructor].
Qed.

Lemma new_blocks_listed node valid :
  StronglySorted (λ a b, b.1 < a.1) valid →
  (length (new_blocks node valid) ≤ length valid)%nat ∧
  StronglySorted (λ a b, height b < height a) (new_blocks node valid) ∧
  Forall (λ b, is_Some (run_command (block node (hash b))))
         (new_blocks node valid).
Proof.
  induction 1 as [|[h hv] valid Hs IH Hh]; [by repeat constructor|].
  destruct IH as (Hlen & Hsort & Hall).
  destruct (new_blocks_cons node h hv valid)
    as [->|(b & Hb1 & Hb2 & Hrun & ->)].
  - split_and!; [simpl; lia|done..].
  - split_and!; [simpl; lia| |constructor; [by rewrite Hb2|done]].
    constructor; [done|]. rewrite Hb1.
    by apply (new_blocks_Forall node (λ x _, x < h)).
Qed.

Lemma heights_listed c :
  (length (heights c) ≤ 3)%nat ∧
  StronglySorted (λ a b, b < a) (heights c) ∧
  Forall (λ h, 0 <= h ∧ c - 2 <= h <= c) (heights c) ∧
  (c < 0 → heights c = []).
Proof.
  unfold heights. rewrite !fmap_cons, fmap_nil, !filter_cons, filter_nil.
  repeat case_decide; split_and!; simpl;
    try lia; try done; try (intros; lia);
    repeat (first [apply SSorted_nil | apply SSorted_cons
                  | apply Forall_nil_2 | apply Forall_cons_2]; try lia).
Qed.

(** What a call that queries the node leaves in the panel. *)
Lemma fetched_listed node c :
  let bs := new_blocks node (valid_hashes node (heights c)) in
  listed_from c bs ∧
  Forall (λ b, run_command (block_hash node (height b)) = Some (hash b) ∧
               hash b ≠ ""%string ∧
               is_Some (run_command (block node (hash b)))) bs ∧
  (c < 0 → bs = []).
Proof.
  destruct (heights_listed c) as (Hlen & Hsort & Hrange & Hneg).
  destruct (valid_hashes_listed node (heights c) Hsort)
    as (Hvlen & Hvsort & Hvall).
  destruct (new_blocks_listed node _ Hvsort) as (Hblen & Hbsort & Hball).
  simpl. split_and!.
  - split_and!; [lia|done|].
    apply (new_blocks_Forall node (λ x _, 0 <= x ∧ c - 2 <= x <= c)).
    by apply (valid_hashes_Forall node (λ x, 0 <= x ∧ c - 2 <= x <= c)).
  - pose proof (new_blocks_Forall node
      (λ x hv, run_command (block_hash node x) = Some hv ∧ hv ≠ ""%string)
      _ Hvall) as H1.
    rewrite Forall_forall in *. intros b Hb.
    destruct (H1 b Hb). split_and!; [done..|]. by apply Hball.
  - intros Hc. by rewrite (Hneg Hc).
Qed.

(** X20.  [update_data] keeps the list well listed: at most three
    blocks, strictly from the tip downwards, none below the tip minus two
    or below height 0.  At height 0 the panel is left as it is, and a
    negative height leaves no block listed. *)
Theorem recent_blocks_stay_listed node current p :
  well_listed p →
  well_listed (update_data node current p) ∧
  (current = 0 → update_data node current p = p) ∧
  (current < 0 → blocks (update_data node current p) = []).
Proof.
  intros Hp. destruct (fetched_listed node current) as (Hl & _ & Hneg).
  unfold update_data. destruct (Z.eqb_spec current 0) as [->|Hne].
  { split_and!; [done|done|lia]. }
  destruct (cached_height p) as [cached|] eqn:Hc.
  - destruct (blocks p) as [|b bs] eqn:Hb.
    + split_and!; [by unfold well_listed|lia|done].
    + destruct (Z.eqb_spec cached current) as [->|Hcc].
      * split_and!; [done|lia|]. intros Hlt. exfalso.
        unfold well_listed in Hp. rewrite Hc, Hb in Hp.
        destruct Hp as (_ & _ & Hall). apply Forall_cons in Hall as [? _].
        lia.
      * split_and!; [by unfold well_listed|lia|done].
  - split_and!; [by unfold well_listed|lia|done].
Qed.

(** X21.  When [update_data] queries the node (a new height, or nothing
    listed yet), every block it lists carries the non-empty hash the node
    gave for its height, and the node answered [getblock] for that
    hash. *)
Theorem listed_blocks_were_answered node current p :
  current ≠ 0 → (cached_height p ≠ Some current ∨ blocks p = []) →
  cached_height (update_data node current p) = Some current ∧
  Forall (λ b, run_command (block_hash node (height b)) = Some (hash b) ∧
               hash b ≠ ""%string ∧
               is_Some (run_command (block node (hash b))))
         (blocks (update_data node current p)).
Proof.
  intros Hne Hfresh. destruct (fetched_listed node current) as (_ & Hall & _).
  unfold update_data. destruct (Z.eqb_spec current 0); [done|].
  destruct (cached_height p) as [cached|] eqn:Hc; [|done].
  destruct (blocks p) as [|b bs] eqn:Hb; [done|].
  destruct (Z.eqb_spec cached current) as [->|]; [|done].
  by destruct Hfresh.
Qed.

Lemma recent_blocks_stay_listed_witness :
  well_listed (update_data Examples.short_node 7 init).
Proof.
  apply (recent_blocks_stay_listed Examples.short_node 7 init).
  reflexivity.
Defined.

Lemma listed_blocks_were_answered_witness :
  cached_height (update_data Examples.short_node 7 init) = Some 7 ∧
  Forall (λ b, run_command (block_hash Examples.short_node (height b))
                 = Some (hash b) ∧
               hash b ≠ ""%string ∧
               is_Some (run_command (block Examples.short_node (hash b))))
         (blocks (update_data Examples.short_node 7 init)).
Proof.
  apply (listed_blocks_were_answered Examples.short_node 7 init);
    [lia | by right].
Defined.

End BlocksFacts.
